(** * version9: the speech relay and the two Gemini proxies of [app.py]

    A shallow embedding of [src/app.py]: the [/audio] websocket handler with
    its ingest thread and request generator, and the [/generate] and
    [/evaluate] HTTP handlers, followed by the properties of the
    specification that concern them.

    Conventions.
    - A Python [str] is a [string]; each [ascii] is one code point below 256.
    - Python integers are [Z]; [str.find] keeps its [-1].
    - A handler is a computation in a state-and-exception monad: the state
      records the calls made on the outside world (frames sent on the
      websocket, prompts sent to the model), the exception is a Python
      [Exception] instance. *)

From Stdlib Require Import String Ascii List ZArith NArith Bool Lia PeanoNat.
From Stdlib Require Import Floats.PrimFloat.
Import ListNotations.

Local Open Scope string_scope.
Local Open Scope list_scope.

Infix "+++" := String.append (at level 60, right associativity).

(** ** Python's [str] methods used by the handlers *)

Module Py.

Definition ord (c : ascii) : N := N_of_ascii c.

(** [c.isspace()] on the code points below 256. *)
Definition isspace (c : ascii) : bool :=
  let n := ord c in
  (((9 <=? n) && (n <=? 13)) || ((28 <=? n) && (n <=? 32))
   || (n =? 133) || (n =? 160))%N.

(** [c.isdigit()] on the code points below 256: the ASCII digits and the
    superscripts two, three and one. *)
Definition isdigit (c : ascii) : bool :=
  let n := ord c in
  (((48 <=? n) && (n <=? 57)) || (n =? 178) || (n =? 179) || (n =? 185))%N.

(** The line boundaries of [str.splitlines] below 256. *)
Definition is_linebreak (c : ascii) : bool :=
  let n := ord c in
  (((10 <=? n) && (n <=? 13)) || ((28 <=? n) && (n <=? 30)) || (n =? 133))%N.

Definition is_empty (s : string) : bool :=
  match s with EmptyString => true | String _ _ => false end.

(** [bool(s)] *)
Definition truthy (s : string) : bool := negb (is_empty s).

Fixpoint lstrip (s : string) : string :=
  match s with
  | EmptyString => EmptyString
  | String c s' => if isspace c then lstrip s' else s
  end.

Fixpoint rstrip (s : string) : string :=
  match s with
  | EmptyString => EmptyString
  | String c s' =>
      let r := rstrip s' in
      if is_empty r && isspace c then EmptyString else String c r
  end.

(** [s.strip()] *)
Definition strip (s : string) : string := rstrip (lstrip s).

(** [s.splitlines()]: [cur] is the line being read ([None] right after a
    boundary or at the start), [after_cr] tells that the previous character
    was a carriage return, so that a line feed belongs to the same
    boundary. *)
Fixpoint splitlines_from (s : string) (cur : option string) (after_cr : bool)
  : list string :=
  match s with
  | EmptyString => match cur with None => [] | Some l => [l] end
  | String c s' =>
      if after_cr && (ord c =? 10)%N then splitlines_from s' cur false
      else if is_linebreak c then
        match cur with None => EmptyString | Some l => l end
          :: splitlines_from s' None (ord c =? 13)%N
      else
        splitlines_from s'
          (Some (match cur with None => EmptyString | Some l => l end
                 +++ String c EmptyString))
          false
  end.

Definition splitlines (s : string) : list string := splitlines_from s None false.

Definition len (s : string) : Z := Z.of_nat (String.length s).

(** [s.find(sub)]: the lowest index of [sub] in [s], or [-1]. *)
Fixpoint find_from (sub s : string) (i : Z) : Z :=
  if prefix sub s then i
  else match s with
       | EmptyString => -1
       | String _ s' => find_from sub s' (i + 1)
       end.

Definition find (sub s : string) : Z := find_from sub s 0.

(** [s.rfind(sub)]: the highest index of [sub] in [s], or [-1]. *)
Fixpoint rfind_from (sub s : string) (i : Z) : Z :=
  match s with
  | EmptyString => if prefix sub s then i else -1
  | String _ s' =>
      let r := rfind_from sub s' (i + 1) in
      if (0 <=? r)%Z then r else if prefix sub s then i else -1
  end.

Definition rfind (sub s : string) : Z := rfind_from sub s 0.

(** [sub in s] *)
Definition contains (sub s : string) : bool := (0 <=? find sub s)%Z.

(** How a slice bound is read ([slice.indices] with step 1): a negative
    bound counts from the end, and every bound is clamped to [0..len]. *)
Definition clamp (n : Z) (i : Z) : Z :=
  if (i <? 0)%Z then Z.max (i + n) 0 else Z.min i n.

(** [s[start:stop]]; [None] is an omitted bound. *)
Definition slice (s : string) (start stop : option Z) : string :=
  let n := len s in
  let a := match start with None => 0%Z | Some i => clamp n i end in
  let b := match stop with None => n | Some j => clamp n j end in
  substring (Z.to_nat a) (Z.to_nat (b - a)) s.

(** [s[0]] on a string known to be non-empty; [None] is the [IndexError]. *)
Definition first_char (s : string) : option ascii :=
  match s with EmptyString => None | String c _ => Some c end.

(** [s.split(sep, 1)] *)
Definition split1 (sep s : string) : list string :=
  let i := find sep s in
  if (i <? 0)%Z then [s]
  else [slice s None (Some i); slice s (Some (i + len sep)%Z) None].

(** [s.replace(old, new)] for a non-empty [old]: occurrences are found from
    the left and do not overlap; [skip] counts the characters of the
    occurrence just replaced that are still to be passed over. *)
Fixpoint replace_from (old new s : string) (skip : nat) : string :=
  match s with
  | EmptyString => EmptyString
  | String c s' =>
      match skip with
      | S k => replace_from old new s' k
      | O =>
          if prefix old s
          then new +++ replace_from old new s' (String.length old - 1)
          else String c (replace_from old new s' 0)
      end
  end.

(** [s.replace("", new)] puts [new] before every character and at the end. *)
Fixpoint interleave (new s : string) : string :=
  match s with
  | EmptyString => new
  | String c s' => new +++ String c (interleave new s')
  end.

Definition replace (old new s : string) : string :=
  if is_empty old then interleave new s else replace_from old new s 0.

(** The position of the first occurrence of a character. *)
Fixpoint first_index (c : ascii) (s : string) : option nat :=
  match s with
  | EmptyString => None
  | String x s' =>
      if Ascii.eqb x c then Some 0
      else option_map S (first_index c s')
  end.

(** The position of the last occurrence of a character. *)
Fixpoint last_index (c : ascii) (s : string) : option nat :=
  match s with
  | EmptyString => None
  | String x s' =>
      match last_index c s' with
      | Some i => Some (S i)
      | None => if Ascii.eqb x c then Some 0 else None
      end
  end.

End Py.

Definition nl : string := String (ascii_of_nat 10) EmptyString.
Definition cr : string := String (ascii_of_nat 13) EmptyString.


(** ** Exceptions and the handler monad *)

(** A Python [Exception] instance: the name of its class, [str(e)], and
    names of classes its class inherits from. The list need not be
    complete: it holds the base classes that a handler tests for. *)
Record exn := MkExn {
  exn_type : string;
  exn_str : string;
  exn_bases : list string
}.

(** An instance of a class for which no base class is listed. *)
Definition Exn (type str : string) : exn := MkExn type str [].

(** [isinstance(e, cls)]: the class of [e] is [cls] or inherits from it. *)
Definition isinstance (e : exn) (cls : string) : bool :=
  String.eqb (exn_type e) cls || existsb (String.eqb cls) (exn_bases e).

Inductive outcome (A : Type) : Type :=
| Returned (a : A)
| Raised (e : exn).
Arguments Returned {A} a.
Arguments Raised {A} e.

(** A computation over a world [W]: it returns or raises, and in both cases
    leaves the world it has changed. *)
Definition M (W A : Type) : Type := W -> outcome A * W.

Section Monad.
Context {W : Type}.

Definition ret {A} (a : A) : M W A := fun w => (Returned a, w).

Definition raise {A} (e : exn) : M W A := fun w => (Raised e, w).

Definition bind {A B} (c : M W A) (k : A -> M W B) : M W B :=
  fun w =>
    match c w with
    | (Returned a, w') => k a w'
    | (Raised e, w') => (Raised e, w')
    end.

(** [try: c  except Exception as e: h e] *)
Definition try_except {A} (c : M W A) (h : exn -> M W A) : M W A :=
  fun w =>
    match c w with
    | (Returned a, w') => (Returned a, w')
    | (Raised e, w') => h e w'
    end.

(** [try: c  finally: f]: [f] runs on both exits; an exception of [f]
    replaces the outcome of [c]. *)
Definition try_finally {A} (c : M W A) (f : M W unit) : M W A :=
  fun w =>
    match c w with
    | (r, w') =>
        match f w' with
        | (Returned _, w'') => (r, w'')
        | (Raised e, w'') => (Raised e, w'')
        end
    end.

(** [for x in l: body x] *)
Fixpoint for_each {A} (l : list A) (body : A -> M W unit) : M W unit :=
  match l with
  | [] => ret tt
  | x :: l' => bind (body x) (fun _ => for_each l' body)
  end.

Definition result_of {A} (c : M W A) (w : W) : outcome A := fst (c w).
Definition world_after {A} (c : M W A) (w : W) : W := snd (c w).
End Monad.

Notation "x <- c ;; k" := (bind c (fun x => k))
  (at level 61, c at next level, right associativity).
Notation "c ;; k" := (bind c (fun _ => k))
  (at level 61, right associativity).

(** ** The [/audio] websocket handler *)

Module Relay.

(** *** The recognizer's messages (google.cloud.speech) *)

Record SpeechRecognitionAlternative := { transcript : string }.

Record StreamingRecognitionResult := {
  alternatives : list SpeechRecognitionAlternative;
  is_final : bool
}.

Record StreamingRecognizeResponse := {
  results : list StreamingRecognitionResult
}.

(** An audio payload received from the client. *)
Definition AudioChunk : Type := string.

Record StreamingRecognizeRequest := { audio_content : AudioChunk }.

(** How the iteration over the response stream ends. *)
Inductive stream_end :=
| Exhausted
| Breaks (e : exn).

(** One session of the recognizer as the handler sees it:
    [streaming_recognize] raises [call_error] or returns an iterator that
    yields [responses] and then stops as [ending] says. *)
Record upstream := {
  call_error : option exn;
  responses : list StreamingRecognizeResponse;
  ending : stream_end
}.

(** *** The client channel *)

(** A call the handler made on the channel. *)
Inductive ws_call :=
| Send (frame : string) (delivered : bool)
| Close.

(** [alive] is the number of frames the peer still accepts before it
    disconnects, [calls] the history of the calls made on the channel,
    oldest first, and [stdout] the exceptions the handler printed. *)
Record ws := {
  alive : nat;
  calls : list ws_call;
  stdout : list exn
}.

Definition ConnectionClosed : exn := Exn "ConnectionClosed" "Connection closed".

Definition IndexError : exn := Exn "IndexError" "list index out of range".

(** Modelled from the spec: [ws.send] of simple_websocket, which is not
    part of the repository. The frame reaches a peer that is still there;
    on a channel whose peer is gone the send fails, with
    [ConnectionClosed]. *)
Definition ws_send (frame : string) : M ws unit :=
  fun w =>
    match alive w with
    | O => (Raised ConnectionClosed,
            {| alive := 0; calls := calls w ++ [Send frame false];
               stdout := stdout w |})
    | S n => (Returned tt,
              {| alive := n; calls := calls w ++ [Send frame true];
                 stdout := stdout w |})
    end.

(** Modelled from the spec: [ws.close] of simple_websocket, which is not
    part of the repository. The close is idempotent: it returns in every
    state and leaves the channel closed. *)
Definition ws_close : M ws unit :=
  fun w =>
    (Returned tt,
     {| alive := 0; calls := calls w ++ [Close]; stdout := stdout w |}).

(** [print("... Speech streaming error:", e)] *)
Definition print_error (e : exn) : M ws unit :=
  fun w =>
    (Returned tt,
     {| alive := alive w; calls := calls w; stdout := stdout w ++ [e] |}).

(** The frames the client received, oldest first. *)
Definition delivered_frame (c : ws_call) : list string :=
  match c with
  | Send frame true => [frame]
  | _ => []
  end.

Definition outbox (w : ws) : list string := flat_map delivered_frame (calls w).

Definition is_close (c : ws_call) : bool :=
  match c with Close => true | Send _ _ => false end.

Definition close_count (w : ws) : nat := List.length (filter is_close (calls w)).

(** *** The handler *)

(** [client.streaming_recognize(streaming_config, request_generator())] *)
Definition streaming_recognize (up : upstream)
  : M ws (list StreamingRecognizeResponse * stream_end) :=
  match call_error up with
  | Some e => raise e
  | None => ret (responses up, ending up)
  end.

(** [for response in responses: body response] over the lazy stream. *)
Definition for_stream (it : list StreamingRecognizeResponse * stream_end)
    (body : StreamingRecognizeResponse -> M ws unit) : M ws unit :=
  for_each (fst it) body ;;
  match snd it with
  | Exhausted => ret tt
  | Breaks e => raise e
  end.

(** [l[0]] *)
Definition item0 {A} (l : list A) : M ws A :=
  match l with
  | [] => raise IndexError
  | x :: _ => ret x
  end.

Definition error_frame : string := "[ERROR] Speech recognition error occurred.".

(** The body of one [for result in response.results] iteration. *)
Definition forward (result : StreamingRecognitionResult) : M ws unit :=
  alternative <- item0 (alternatives result) ;;
  let transcript := transcript alternative in
  if is_final result
  then ws_send ("[FINAL]" +++ transcript)
  else ws_send ("[INTERIM]" +++ transcript).

(** The body of the [try] block. *)
Definition drain (up : upstream) : M ws unit :=
  responses <- streaming_recognize up ;;
  for_stream responses (fun response =>
    for_each (results response) forward).

(** The [except Exception as e] block. *)
Definition on_error (e : exn) : M ws unit :=
  print_error e ;;
  try_except (ws_send error_frame) (fun _ => ret tt).

(** [audio(ws)], from the [try] on. *)
Definition audio (up : upstream) : M ws unit :=
  try_finally (try_except (drain up) on_error) ws_close.

(** *** The ingest thread and the request generator *)

(** What one [ws.receive()] gives. *)
Inductive ending_signal :=
| ReturnedNone
| RaisedConnectionClosed.

Inductive received :=
| Data (data : AudioChunk)
| Ended (how : ending_signal).

Inductive task := Running | Finished.

(** The state the two tasks share and move: [inbox] is what the client will
    still deliver, [audio_q] the queue (head is the next item to get; [None]
    is the sentinel), [yielded] what [request_generator] has yielded so far.
    [dequeued] is a history variable: every item [audio_q.get()] returned. *)
Record session := {
  inbox : list received;
  audio_q : list (option AudioChunk);
  ingest : task;
  dequeued : list (option AudioChunk);
  yielded : list StreamingRecognizeRequest;
  generator : task
}.

Definition start (client : list received) : session :=
  {| inbox := client; audio_q := []; ingest := Running;
     dequeued := []; yielded := []; generator := Running |}.

(** One turn of [receive_audio]: a [ws.receive()] and the [audio_q.put]
    that follows it. [None]: the thread is over, or blocked in
    [ws.receive()]. *)
Definition receive_audio_step (s : session) : option session :=
  match ingest s, inbox s with
  | Running, Data data :: rest =>
      Some {| inbox := rest; audio_q := audio_q s ++ [Some data];
              ingest := Running; dequeued := dequeued s;
              yielded := yielded s; generator := generator s |}
  | Running, Ended _ :: rest =>
      Some {| inbox := rest; audio_q := audio_q s ++ [None];
              ingest := Finished; dequeued := dequeued s;
              yielded := yielded s; generator := generator s |}
  | _, _ => None
  end.

(** One turn of [request_generator]: an [audio_q.get()] and the [yield] or
    [break] that follows it. [None]: the generator is over, or blocked in
    [audio_q.get()]. *)
Definition request_generator_step (s : session) : option session :=
  match generator s, audio_q s with
  | Running, Some chunk :: q =>
      Some {| inbox := inbox s; audio_q := q; ingest := ingest s;
              dequeued := dequeued s ++ [Some chunk];
              yielded := yielded s ++ [{| audio_content := chunk |}];
              generator := Running |}
  | Running, None :: q =>
      Some {| inbox := inbox s; audio_q := q; ingest := ingest s;
              dequeued := dequeued s ++ [None];
              yielded := yielded s; generator := Finished |}
  | _, _ => None
  end.

Inductive thread := Ingest | Generator.

Definition step (t : thread) (s : session) : option session :=
  match t with
  | Ingest => receive_audio_step s
  | Generator => request_generator_step s
  end.

(** An interleaving of the two: the scheduler names the thread that moves
    next; a thread that cannot move leaves the state as it is. *)
Fixpoint run (schedule : list thread) (s : session) : session :=
  match schedule with
  | [] => s
  | t :: rest =>
      run rest (match step t s with Some s' => s' | None => s end)
  end.

(** The payloads that arrive before the channel ends, in arrival order. *)
Fixpoint arrivals (client : list received) : list AudioChunk :=
  match client with
  | Data data :: rest => data :: arrivals rest
  | _ => []
  end.

Definition request (chunk : AudioChunk) : StreamingRecognizeRequest :=
  {| audio_content := chunk |}.

(** *** The vocabulary of the specification *)

Definition tag (final : bool) : string :=
  if final then "[FINAL]" else "[INTERIM]".

(** The transcript of the top alternative. *)
Definition top_transcript (r : StreamingRecognitionResult) : string :=
  match alternatives r with
  | a :: _ => transcript a
  | [] => EmptyString
  end.

(** The text frame of a result. *)
Definition framed (r : StreamingRecognitionResult) : string :=
  tag (is_final r) +++ top_transcript r.

(** The results of a response stream in emission order. *)
Definition all_results (up : upstream) : list StreamingRecognitionResult :=
  flat_map results (responses up).

Definition is_result_send (c : ws_call) : Prop :=
  exists r b, c = Send (framed r) b.

Definition is_error_send (c : ws_call) : bool :=
  match c with
  | Send frame _ => String.eqb frame error_frame
  | Close => false
  end.

(** The invariant of a session whose client delivers [client]: [ds] are the
    chunks dequeued so far and [qs] those waiting in the queue. *)
Definition session_inv (client : list received) (s : session) : Prop :=
  exists ds qs,
    yielded s = map request ds /\
    match ingest s, generator s with
    | Running, Running =>
        dequeued s = map Some ds /\ audio_q s = map Some qs /\
        client = map Data (ds ++ qs) ++ inbox s
    | Finished, Running =>
        dequeued s = map Some ds /\ audio_q s = map Some qs ++ [None] /\
        exists how, client = map Data (ds ++ qs) ++ Ended how :: inbox s
    | Finished, Finished =>
        dequeued s = map Some ds ++ [None] /\ audio_q s = [] /\ qs = [] /\
        exists how, client = map Data (ds ++ qs) ++ Ended how :: inbox s
    | Running, Finished => False
    end.

(** The sentence of the specification, read for every session: each
    result of the stream reaches the client as its frame. *)
Definition forwards_every_result (up : upstream) (w : ws) : Prop :=
  outbox (world_after (audio up) w) = outbox w ++ map framed (all_results up).

(** *** Sample sessions *)

Definition interim_hel : StreamingRecognitionResult :=
  {| alternatives := [{| transcript := "hel" |}]; is_final := false |}.

Definition final_hello : StreamingRecognitionResult :=
  {| alternatives := [{| transcript := "hello" |}; {| transcript := "hallo" |}];
     is_final := true |}.

(** One response with two results, then the end of the stream. *)
Definition one_utterance : upstream :=
  {| call_error := None;
     responses := [{| results := [interim_hel; final_hello] |}];
     ending := Exhausted |}.

(** One result, then the stream breaks. *)
Definition broken_stream : upstream :=
  {| call_error := None;
     responses := [{| results := [interim_hel] |}];
     ending := Breaks (Exn "ServiceUnavailable" "503 recognizer unavailable") |}.

(** A fresh channel whose peer accepts [n] more frames. *)
Definition connected (n : nat) : ws :=
  {| alive := n; calls := []; stdout := [] |}.

(** Two payloads, then the client leaves. *)
Definition two_chunks : list received :=
  [Data "a"; Data "b"; Ended RaisedConnectionClosed].

End Relay.

(** ** The [/generate] and [/evaluate] handlers *)

Module Http.

(** *** JSON values, as [get_json] and [json.loads] return them and as
    [jsonify] takes them *)

#[local] Set Warnings "-register-all".

Inductive json :=
| JNull
| JBool (b : bool)
| JInt (z : Z)
| JFloat (f : float)
| JStr (s : string)
| JList (l : list json)
| JDict (d : list (string * json)).

(** [bool(v)] *)
Definition py_bool (v : json) : bool :=
  match v with
  | JNull => false
  | JBool b => b
  | JInt z => negb (z =? 0)%Z
  | JFloat f => negb (PrimFloat.eqb f PrimFloat.zero)
  | JStr s => Py.truthy s
  | JList l => match l with [] => false | _ :: _ => true end
  | JDict d => match d with [] => false | _ :: _ => true end
  end.

(** [type(v).__name__] *)
Definition type_name (v : json) : string :=
  match v with
  | JNull => "NoneType"
  | JBool _ => "bool"
  | JInt _ => "int"
  | JFloat _ => "float"
  | JStr _ => "str"
  | JList _ => "list"
  | JDict _ => "dict"
  end.

Fixpoint lookup (key : string) (d : list (string * json)) : option json :=
  match d with
  | [] => None
  | (k, v) :: d' => if String.eqb k key then Some v else lookup key d'
  end.

(** *** The outside world of a request *)

(** What [flask.request.get_json()] does on a request: it raises (the body
    is no JSON, or of another content type), or returns the parsed body. *)
Inductive request :=
| Unparseable (e : exn)
| Body (data : json).

(** The [text] attribute of a model response: a string, or a property that
    raises. *)
Inductive text_attr :=
| Text (s : string)
| TextRaises (e : exn).

(** What [model.generate_content(prompt)] does. *)
Inductive model_reply :=
| Reply (text : text_attr)
| CallFails (e : exn).

(** The prompts sent to the model while the request was handled, oldest
    first: one entry per upstream call. *)
Record backend := { prompts : list string }.

Record response := { body : json; status : Z }.

(** [flask.jsonify(payload)], returned with a status code. *)
Definition jsonify (payload : list (string * json)) (code : Z) : response :=
  {| body := JDict payload; status := code |}.

Definition AttributeError (v : json) (attr : string) : exn :=
  Exn "AttributeError"
      ("'" +++ type_name v +++ "' object has no attribute '" +++ attr +++ "'").

Definition get_json (req : request) : M backend json :=
  match req with
  | Unparseable e => raise e
  | Body data => ret data
  end.

(** [data.get(key, default)] *)
Definition dict_get (data : json) (key : string) (default : json)
  : M backend json :=
  match data with
  | JDict d =>
      ret (match lookup key d with Some v => v | None => default end)
  | _ => raise (AttributeError data "get")
  end.

Definition dq : string := String (ascii_of_nat 34) EmptyString.

(** A line of a prompt template: eight spaces, the text, a line feed. *)
Definition line (text : string) : string := "        " +++ text +++ nl.

Definition quoted (s : string) : string := dq +++ s +++ dq.

Section Handlers.

(** The Gemini backend, [json.loads], and [str(v)] of a value that is not
    a string. *)
Variable model : string -> model_reply.
Variable json_loads : string -> outcome json.
Variable to_str : json -> string.

(** A replacement field of an f-string. *)
Definition format (v : json) : string :=
  match v with
  | JStr s => s
  | _ => to_str v
  end.

Definition generate_content (prompt : string) : M backend text_attr :=
  fun w =>
    (match model prompt with
     | Reply text => Returned text
     | CallFails e => Raised e
     end,
     {| prompts := prompts w ++ [prompt] |}).

(** [response.text] *)
Definition response_text (text : text_attr) : M backend string :=
  match text with
  | Text s => ret s
  | TextRaises e => raise e
  end.

(** [getattr(response, "text", "")]: the default stands in when the
    attribute raises an [AttributeError], of that class or of a subclass. *)
Definition getattr_text (text : text_attr) : M backend string :=
  match text with
  | Text s => ret s
  | TextRaises e =>
      if isinstance e "AttributeError" then ret EmptyString
      else raise e
  end.

(** *** [generate] *)

Definition generate_prompt (job_description : json) : string :=
  nl
  +++ line "You are an expert HR interviewer."
  +++ line "Generate exactly 4 interview questions:"
  +++ line "- 2 general HR questions"
  +++ line "- 2 job-specific questions based on the following job description."
  +++ nl
  +++ line "Job Description:"
  +++ line (format job_description)
  +++ nl
  +++ line "Return only the questions in a numbered list format:"
  +++ line "1. ..."
  +++ line "2. ..."
  +++ line "3. ..."
  +++ line "4. ..."
  +++ "        ".

(** [line[0].isdigit() and ('.' in line[:4])], on a non-empty line. *)
Definition has_marker (line : string) : bool :=
  match Py.first_char line with
  | Some c => Py.isdigit c && Py.contains "." (Py.slice line None (Some 4%Z))
  | None => false
  end.

(** The question kept for a stripped, non-empty line. *)
Definition question_of (line : string) : string :=
  if has_marker line then
    let parts := Py.split1 "." line in
    if (1 <? List.length parts)%nat
    then Py.strip (nth 1 parts EmptyString)
    else line
  else line.

(** One turn of [for line in questions_text.splitlines()]. *)
Definition add_line (questions : list string) (line : string) : list string :=
  let line := Py.strip line in
  if negb (Py.truthy line) then questions
  else questions ++ [question_of line].

Definition parse_questions (questions_text : string) : list string :=
  fold_left add_line (Py.splitlines questions_text) [].

Definition generate (req : request) : M backend response :=
  try_except
    (data <- get_json req ;;
     job_description <- dict_get data "job_description" (JStr EmptyString) ;;
     let prompt := generate_prompt job_description in
     response <- generate_content prompt ;;
     text <- response_text response ;;
     let questions_text := Py.strip text in
     let questions := parse_questions questions_text in
     ret (jsonify [("questions", JList (map JStr questions))] 200))
    (fun e => ret (jsonify [("error", JStr (exn_str e))] 500)).

(** *** [evaluate] *)

(** The en dash of the template, the one character of the file above 255,
    stands as its UTF-8 bytes. *)
Definition evaluate_prompt (question answer : json) : string :=
  nl
  +++ line "You are an expert interview evaluator."
  +++ line "Evaluate the candidate's answer using the following 10 parameters."
  +++ line "Each parameter should have a score from 1–10."
  +++ line "Also calculate a total (sum out of 100)."
  +++ line "Provide a 2-3 sentence summary and 3-5 improvement tips."
  +++ nl
  +++ line "Parameters:"
  +++ line "1. Clarity"
  +++ line "2. Relevance"
  +++ line "3. Communication"
  +++ line "4. Confidence"
  +++ line "5. Structure"
  +++ line "6. Technical Depth"
  +++ line "7. Example Quality"
  +++ line "8. Conciseness"
  +++ line "9. Authenticity"
  +++ line "10. Impact"
  +++ nl
  +++ line "Format response as pure JSON:"
  +++ line "{"
  +++ line ("  " +++ quoted "scores" +++ ": {")
  +++ line ("    " +++ quoted "Clarity" +++ ": 0,")
  +++ line ("    " +++ quoted "Relevance" +++ ": 0,")
  +++ line ("    " +++ quoted "Communication" +++ ": 0,")
  +++ line ("    " +++ quoted "Confidence" +++ ": 0,")
  +++ line ("    " +++ quoted "Structure" +++ ": 0,")
  +++ line ("    " +++ quoted "Technical Depth" +++ ": 0,")
  +++ line ("    " +++ quoted "Example Quality" +++ ": 0,")
  +++ line ("    " +++ quoted "Conciseness" +++ ": 0,")
  +++ line ("    " +++ quoted "Authenticity" +++ ": 0,")
  +++ line ("    " +++ quoted "Impact" +++ ": 0")
  +++ line "  },"
  +++ line ("  " +++ quoted "total" +++ ": 0,")
  +++ line ("  " +++ quoted "summary" +++ ": "
            +++ quoted "short 2-3 sentence summary" +++ ",")
  +++ line ("  " +++ quoted "improvement_tips" +++ ": [")
  +++ line ("    " +++ quoted "tip 1" +++ ",")
  +++ line ("    " +++ quoted "tip 2" +++ ",")
  +++ line ("    " +++ quoted "tip 3")
  +++ line "  ]"
  +++ line "}"
  +++ nl
  +++ line ("Question: " +++ format question)
  +++ line ("Answer: " +++ format answer)
  +++ "        ".

(** [raw_text.strip().replace("```json", "").replace("```", "")] *)
Definition clean (raw_text : string) : string :=
  Py.replace "```" "" (Py.replace "```json" "" (Py.strip raw_text)).

(** [cleaned[cleaned.find("{"): cleaned.rfind("}") + 1]] *)
Definition json_part (cleaned : string) : string :=
  Py.slice cleaned (Some (Py.find "{" cleaned))
           (Some (Py.rfind "}" cleaned + 1)%Z).

Definition missing_fields : response :=
  jsonify [("error", JStr "Missing question or answer")] 400.

Definition evaluate (req : request) : M backend response :=
  try_except
    (data <- get_json req ;;
     question <- dict_get data "question" (JStr EmptyString) ;;
     answer <- dict_get data "answer" (JStr EmptyString) ;;
     if negb (py_bool question) || negb (py_bool answer)
     then ret missing_fields
     else
       let prompt := evaluate_prompt question answer in
       response <- generate_content prompt ;;
       raw_text <- getattr_text response ;;
       let cleaned := clean raw_text in
       let json_part := json_part cleaned in
       evaluation <-
         try_except (fun w => (json_loads json_part, w))
                    (fun _ => ret (JDict [("raw_evaluation", JStr raw_text)])) ;;
       ret (jsonify [("evaluation", evaluation)] 200))
    (fun e => ret (jsonify [("error", JStr (exn_str e))] 500)).

End Handlers.

(** A request starts with no upstream call made. *)
Definition fresh : backend := {| prompts := [] |}.

Definition upstream_calls (w : backend) : nat := List.length (prompts w).

(** *** The vocabulary of the specification *)

(** The value of a field of an object body, [""] when it is missing. *)
Definition field (d : list (string * json)) (key : string) : json :=
  match lookup key d with
  | Some v => v
  | None => JStr EmptyString
  end.

(** A field that is missing or holds the empty string. *)
Definition missing_or_empty (d : list (string * json)) (key : string) : Prop :=
  lookup key d = None \/ lookup key d = Some (JStr EmptyString).

Definition error_response (e : exn) : response :=
  jsonify [("error", JStr (exn_str e))] 500.

(** The substring running from the first opening brace through the last
    closing brace, in the words of the specification; [None] when the text
    lacks one of the two. *)
Definition brace_span (s : string) : option string :=
  match Py.first_index "{" s, Py.last_index "}" s with
  | Some a, Some b => Some (substring a (S b - a) s)
  | _, _ => None
  end.

(** The fence marker of [clean]. *)
Definition fence : string := "```".

(** The sentence of the specification, read for every request: the handler
    goes on to call the model. *)
Definition calls_model_once
    (model : string -> model_reply) (to_str : json -> string) (req : request)
  : Prop :=
  upstream_calls (world_after (generate model to_str req) fresh) = 1.

(** *** Sample requests and backends *)

(** [str(v)] for [None] and the booleans; the samples hold no other value
    that is not a string. *)
Definition str_sample (v : json) : string :=
  match v with
  | JNull => "None"
  | JBool true => "True"
  | JBool false => "False"
  | _ => EmptyString
  end.

(** [json.loads] on the two texts the samples parse: the empty object, and
    anything else taken as the text that holds no JSON value. *)
Definition loads_sample (s : string) : outcome json :=
  if String.eqb s "{}" then Returned (JDict [])
  else Raised (Exn "JSONDecodeError"
                   "Expecting value: line 1 column 1 (char 0)").

(** A model that answers in prose. *)
Definition prose_model (prompt : string) : model_reply :=
  Reply (Text "I would rate this answer 7 out of 10.").

(** A model whose JSON lost its opening brace. *)
Definition truncated_text : string := "total: 70}".

Definition truncated_model (prompt : string) : model_reply :=
  Reply (Text truncated_text).

(** A model whose numbered list stops right after the last marker. *)
Definition numbered_text : string :=
  "1. Tell me about yourself" +++ nl
  +++ "2. Why do you want this role?" +++ nl
  +++ "3. Describe a hard bug you fixed." +++ nl
  +++ "4.".

Definition numbered_model (prompt : string) : model_reply :=
  Reply (Text numbered_text).

Definition engineer_request : request :=
  Body (JDict [("job_description", JStr "Backend engineer")]).

Definition answered_request : request :=
  Body (JDict [("question", JStr "Why us?"); ("answer", JStr "Because.")]).

End Http.

(** ** Further vocabulary and samples *)

Module Observed.
Import Relay.

(** A send that raised. *)
Definition failed_send (c : ws_call) : bool :=
  match c with
  | Send _ false => true
  | _ => false
  end.

(** The payloads among queue items, in order. *)
Definition chunks (items : list (option AudioChunk)) : list AudioChunk :=
  flat_map (fun item => match item with Some c => [c] | None => [] end) items.

(** The payloads the ingest thread has still to read. *)
Definition unread (s : session) : list AudioChunk :=
  match ingest s with
  | Running => arrivals (inbox s)
  | Finished => []
  end.

(** A result that carries no alternative. *)
Definition no_alternative : StreamingRecognitionResult :=
  {| alternatives := []; is_final := true |}.

(** A stream whose second result carries no alternative. *)
Definition gap_stream : upstream :=
  {| call_error := None;
     responses := [{| results := [interim_hel; no_alternative; final_hello] |}];
     ending := Exhausted |}.

(** A recognizer that refuses the call. *)
Definition refused_call : upstream :=
  {| call_error := Some (Exn "PermissionDenied" "403 quota exceeded");
     responses := [{| results := [interim_hel] |}];
     ending := Exhausted |}.

(** A stream of responses that hold no result. *)
Definition silent_stream : upstream :=
  {| call_error := None;
     responses := [{| results := [] |}; {| results := [] |}];
     ending := Exhausted |}.

(** A client that sends payloads and stays. *)
Definition staying_client : list received := [Data "a"; Data ""; Data "b"].

End Observed.

Module Accepted.
Import Http.

(** The requests that pass the first lines of [evaluate]: an object body
    whose [question] and [answer] are both true in Python's sense. *)
Definition accepted (req : request) : bool :=
  match req with
  | Body (JDict d) =>
      py_bool (field d "question") && py_bool (field d "answer")
  | _ => false
  end.

(** The requests whose body [generate] can read. *)
Definition readable (req : request) : bool :=
  match req with
  | Body (JDict _) => true
  | _ => false
  end.

(** A model whose response has no [text] attribute. *)
Definition textless_model (prompt : string) : model_reply :=
  Reply (TextRaises
           (Exn "AttributeError"
                "'Response' object has no attribute 'text'")).

(** A model whose response refuses the read of [text] with a subclass of
    [AttributeError], as a frozen dataclass does. *)
Definition frozen_model (prompt : string) : model_reply :=
  Reply (TextRaises
           (MkExn "FrozenInstanceError" "cannot assign to field 'text'"
                  ["AttributeError"])).

(** A model that is out of quota. *)
Definition failing_model (prompt : string) : model_reply :=
  CallFails (Exn "ResourceExhausted" "429 quota exceeded").

(** A model that answers with white space only. *)
Definition blank_model (prompt : string) : model_reply :=
  Reply (Text ("  " +++ nl +++ nl)).

(** A model that answers with the empty object. *)
Definition object_model (prompt : string) : model_reply :=
  Reply (Text (nl +++ "{}" +++ nl)).

End Accepted.

(** * Properties *)

(** ** The monad *)

Lemma bind_run {W A B} (c : M W A) (k : A -> M W B) (w : W) :
  bind c k w =
  match c w with
  | (Returned a, w') => k a w'
  | (Raised e, w') => (Raised e, w')
  end.
Proof. reflexivity. Qed.

Lemma for_each_app {W A} (body : A -> M W unit) (l1 l2 : list A) (w : W) :
  for_each (l1 ++ l2) body w =
  bind (for_each l1 body) (fun _ => for_each l2 body) w.
Proof.
  revert w. induction l1 as [|x l1 IH]; intro w; simpl.
  - reflexivity.
  - rewrite !bind_run. destruct (body x w) as [[[]|e] w']; [|reflexivity].
    rewrite IH. reflexivity.
Qed.

(** A loop nested in a loop runs the inner body over the concatenation. *)
Lemma for_each_flat_map {W A B} (f : A -> list B) (body : B -> M W unit)
      (l : list A) (w : W) :
  for_each l (fun x => for_each (f x) body) w = for_each (flat_map f l) body w.
Proof.
  revert w. induction l as [|x l IH]; intro w; simpl.
  - reflexivity.
  - rewrite for_each_app, !bind_run.
    destruct (for_each (f x) body w) as [[[]|e] w']; [apply IH|reflexivity].
Qed.

(** ** The drain loop of [audio] *)

Module RelayProofs.
Import Relay.

Lemma forward_run (r : StreamingRecognitionResult) (w : ws) :
  forward r w =
  match alternatives r with
  | [] => (Raised IndexError, w)
  | _ :: _ => ws_send (framed r) w
  end.
Proof.
  unfold forward, framed, top_transcript, tag, item0.
  destruct (alternatives r) as [|a l]; [reflexivity|].
  rewrite bind_run. unfold ret. destruct (is_final r); reflexivity.
Qed.

(** What a run of the inner loop over [rs] leaves behind: the calls are
    sends of result frames, the frames delivered are those of the first [k]
    results, and a normal return means that all of them went through. *)
Lemma for_each_forward (rs : list StreamingRecognitionResult) :
  forall w r w1,
    for_each rs forward w = (r, w1) ->
    stdout w1 = stdout w /\
    exists k sends,
      k <= List.length rs /\
      calls w1 = calls w ++ sends /\
      Forall is_result_send sends /\
      flat_map delivered_frame sends = map framed (firstn k rs) /\
      alive w1 <= alive w - k /\
      (r = Returned tt -> k = List.length rs).
Proof.
  induction rs as [|x rs IH]; intros w r w1 H; simpl in H.
  - inversion H; subst. split; [reflexivity|].
    exists 0, []. rewrite app_nil_r. repeat split; auto; simpl; lia.
  - rewrite bind_run, forward_run in H.
    destruct (alternatives x) as [|a l] eqn:Ea.
    + inversion H; subst. split; [reflexivity|].
      exists 0, []. rewrite app_nil_r. repeat split; auto; simpl; try lia.
      discriminate.
    + unfold ws_send in H. destruct (alive w) as [|n] eqn:En.
      * inversion H; subst; simpl. split; [reflexivity|].
        exists 0, [Send (framed x) false]. repeat split; auto; simpl; try lia.
        -- constructor; [|constructor]. exists x, false. reflexivity.
        -- discriminate.
      * destruct (IH _ _ _ H) as (Hs & k & sends & Hk & Hc & Hf & Hd & Ha & Hr).
        simpl in *. split; [exact Hs|].
        exists (S k), (Send (framed x) true :: sends). repeat split; simpl.
        -- lia.
        -- rewrite Hc, <- app_assoc. reflexivity.
        -- constructor; [exists x, true; reflexivity|exact Hf].
        -- rewrite Hd. reflexivity.
        -- lia.
        -- intro E. rewrite (Hr E). reflexivity.
Qed.

(** With an alternative in every result and a peer that stays, the loop
    sends every frame and returns. *)
Lemma for_each_forward_healthy (rs : list StreamingRecognitionResult) :
  forall w,
    Forall (fun r => alternatives r <> []) rs ->
    List.length rs <= alive w ->
    for_each rs forward w =
    (Returned tt,
     {| alive := alive w - List.length rs;
        calls := calls w ++ map (fun r => Send (framed r) true) rs;
        stdout := stdout w |}).
Proof.
  induction rs as [|x rs IH]; intros w Hall Hlen; simpl.
  - rewrite Nat.sub_0_r, app_nil_r. destruct w; reflexivity.
  - inversion Hall as [|? ? Hx Hrs]; subst. simpl in Hlen.
    rewrite bind_run, forward_run.
    destruct (alternatives x) as [|a l]; [congruence|].
    unfold ws_send. destruct (alive w) as [|n] eqn:En; [lia|].
    rewrite IH; [|exact Hrs|simpl; lia]. simpl.
    rewrite <- app_assoc. reflexivity.
Qed.

Lemma drain_run (up : upstream) (w : ws) :
  drain up w =
  match call_error up with
  | Some e => (Raised e, w)
  | None =>
      match for_each (all_results up) forward w with
      | (Returned _, w1) =>
          (match ending up with
           | Exhausted => Returned tt
           | Breaks e => Raised e
           end, w1)
      | (Raised e, w1) => (Raised e, w1)
      end
  end.
Proof.
  unfold drain, streaming_recognize, all_results.
  destruct (call_error up) as [e|]; [reflexivity|].
  rewrite bind_run. unfold ret at 1. unfold for_stream. simpl fst; simpl snd.
  rewrite bind_run, for_each_flat_map.
  destruct (for_each _ forward w) as [[[]|e] w1]; [|reflexivity].
  destruct (ending up); reflexivity.
Qed.

(** The calls of the [try] block are sends of result frames; it prints
    nothing. *)
Lemma drain_calls (up : upstream) (w : ws) r w1 :
  drain up w = (r, w1) ->
  stdout w1 = stdout w /\
  exists k sends,
    k <= List.length (all_results up) /\
    calls w1 = calls w ++ sends /\
    Forall is_result_send sends /\
    flat_map delivered_frame sends = map framed (firstn k (all_results up)).
Proof.
  rewrite drain_run. destruct (call_error up) as [e|].
  - intro H; inversion H; subst. split; [reflexivity|].
    exists 0, []. rewrite app_nil_r. repeat split; auto. lia.
  - destruct (for_each _ forward w) as [r0 w0] eqn:E.
    destruct (for_each_forward _ _ _ _ E)
      as (Hs & k & sends & Hk & Hc & Hf & Hd & _ & _).
    intro H.
    assert (w1 = w0) by (destruct r0 as [[]|]; inversion H; reflexivity).
    subst w0. split; [exact Hs|]. exists k, sends. auto.
Qed.

(** The handler in one step: the [try] block, then the handler of the
    exception if there is one, then the [finally] block. *)
Lemma audio_run (up : upstream) (w : ws) :
  audio up w =
  match drain up w with
  | (Returned _, w1) =>
      (Returned tt,
       {| alive := 0; calls := calls w1 ++ [Close]; stdout := stdout w1 |})
  | (Raised e, w1) =>
      (Returned tt,
       {| alive := 0;
          calls := calls w1 ++ [Send error_frame (0 <? alive w1)%nat; Close];
          stdout := stdout w1 ++ [e] |})
  end.
Proof.
  unfold audio, try_finally, try_except.
  destruct (drain up w) as [[[]|e] w1]; [reflexivity|].
  unfold on_error. rewrite bind_run. unfold print_error, try_except, ws_send.
  simpl. destruct (alive w1); simpl; rewrite <- app_assoc; reflexivity.
Qed.

Lemma result_send_not_close (sends : list ws_call) :
  Forall is_result_send sends -> filter is_close sends = [].
Proof.
  induction 1 as [|c l (r & b & ->) _ IH]; simpl; auto.
Qed.

Lemma result_send_not_error (sends : list ws_call) :
  Forall is_result_send sends -> filter is_error_send sends = [].
Proof.
  induction 1 as [|c l (r & b & ->) _ IH]; simpl; auto.
  unfold framed, tag. destruct (is_final r); simpl; exact IH.
Qed.

(** C1, as amended. In every session the frames the client receives are the
    frames of the first [k] results of the stream, in emission order, one
    frame per result, each being the tag of the result's finality flag
    followed by its top transcript, and after them at most the one error
    frame. When the recognizer raises nothing, every result has an
    alternative and the client accepts every frame, [k] is the number of
    results: every result is forwarded and nothing else is sent. *)
Theorem audio_forwards_results_in_order (up : upstream) (w : ws) :
  (exists k tail,
      k <= List.length (all_results up) /\
      outbox (world_after (audio up) w) =
        outbox w ++ map framed (firstn k (all_results up)) ++ tail /\
      (tail = [] \/ tail = [error_frame]))
  /\ (call_error up = None ->
      ending up = Exhausted ->
      Forall (fun r => alternatives r <> []) (all_results up) ->
      List.length (all_results up) <= alive w ->
      outbox (world_after (audio up) w) =
        outbox w ++ map framed (all_results up)).
Proof.
  unfold world_after. rewrite audio_run. split.
  - destruct (drain up w) as [r w1] eqn:E.
    destruct (drain_calls _ _ _ _ E) as (_ & k & sends & Hk & Hc & _ & Hd).
    exists k. unfold outbox.
    destruct r as [[]|e]; simpl; rewrite Hc, !flat_map_app, Hd; simpl.
    + exists []. rewrite <- app_assoc. auto.
    + destruct (alive w1); simpl.
      * exists []. rewrite <- app_assoc. auto.
      * exists [error_frame]. rewrite <- app_assoc. auto.
  - intros Hcall Hend Hall Hlen.
    rewrite drain_run, Hcall, (for_each_forward_healthy _ _ Hall Hlen), Hend.
    unfold outbox. simpl. rewrite !flat_map_app. simpl. rewrite app_nil_r.
    f_equal. clear. induction (all_results up); simpl; congruence.
Qed.

(** C2. On every exit path of the [try] block, whatever the recognizer does
    and whenever the client leaves, the handler returns after calling
    [ws.close()] exactly once, as its last call on the channel. *)
Theorem audio_closes_channel_exactly_once (up : upstream) (w : ws) :
  (exists sends,
      calls (world_after (audio up) w) = calls w ++ sends ++ [Close] /\
      filter is_close sends = [])
  /\ close_count (world_after (audio up) w) = S (close_count w)
  /\ alive (world_after (audio up) w) = 0.
Proof.
  unfold world_after. rewrite audio_run.
  destruct (drain up w) as [r w1] eqn:E.
  destruct (drain_calls _ _ _ _ E) as (_ & k & sends & _ & Hc & Hf & _).
  pose proof (result_send_not_close _ Hf) as Hn.
  unfold close_count.
  destruct r as [[]|e]; simpl; rewrite Hc.
  - repeat split.
    + exists sends. rewrite <- app_assoc. auto.
    + rewrite !filter_app, Hn, !length_app. simpl. lia.
  - repeat split.
    + exists (sends ++ [Send error_frame (0 <? alive w1)%nat]).
      rewrite filter_app, Hn. simpl. rewrite <- !app_assoc. auto.
    + rewrite !filter_app, Hn, !length_app. simpl. lia.
Qed.

(** C4. The handler always returns: no exception of the recognizer call, of
    the response stream or of the loop body leaves it. When the [try] block
    raises [e], the handler prints [e], tries once to send the error frame,
    which reaches the client exactly when the peer is still there, and goes
    on to the [finally] block whether or not that send raised; the error
    frame is sent at most this once in the session. *)
Theorem audio_catches_every_exception (up : upstream) (w : ws) :
  result_of (audio up) w = Returned tt
  /\ (forall e w1,
        drain up w = (Raised e, w1) ->
        calls (world_after (audio up) w) =
          calls w1 ++ [Send error_frame (0 <? alive w1)%nat; Close]
        /\ stdout (world_after (audio up) w) = stdout w ++ [e]
        /\ exists sent,
            calls (world_after (audio up) w) = calls w ++ sent
            /\ List.length (filter is_error_send sent) = 1)
  /\ (forall w1,
        drain up w = (Returned tt, w1) ->
        calls (world_after (audio up) w) = calls w1 ++ [Close]
        /\ exists sent,
            calls (world_after (audio up) w) = calls w ++ sent
            /\ filter is_error_send sent = []).
Proof.
  unfold world_after, result_of. rewrite audio_run.
  destruct (drain up w) as [r w0] eqn:E.
  destruct (drain_calls _ _ _ _ E) as (Hs & k & sends & _ & Hc & Hf & _).
  pose proof (result_send_not_error _ Hf) as Hn.
  split; [destruct r as [[]|]; reflexivity|]. split.
  - intros e w1 H. inversion H; subst. simpl. repeat split.
    + rewrite Hs. reflexivity.
    + exists (sends ++ [Send error_frame (0 <? alive w1)%nat; Close]).
      rewrite Hc, <- app_assoc, filter_app, Hn. auto.
  - intros w1 H. inversion H; subst. simpl. split; [reflexivity|].
    exists (sends ++ [Close]).
    rewrite Hc, <- app_assoc, filter_app, Hn. auto.
Qed.

(** C1 as stated fails when the client leaves during the stream: of two
    results, the peer takes the first frame only; the send of the second
    raises and the loop is over. *)
Lemma audio_stops_forwarding_after_disconnect :
  ~ forwards_every_result one_utterance (connected 1).
Proof. unfold forwards_every_result. vm_compute. discriminate. Qed.

Lemma audio_forwards_results_in_order_witness :
  call_error one_utterance = None
  /\ ending one_utterance = Exhausted
  /\ Forall (fun r => alternatives r <> []) (all_results one_utterance)
  /\ List.length (all_results one_utterance) <= alive (connected 2)
  /\ outbox (world_after (audio one_utterance) (connected 2)) =
     ["[INTERIM]hel"; "[FINAL]hello"].
Proof.
  split; [reflexivity|]. split; [reflexivity|].
  split; [repeat constructor; discriminate|]. split; [simpl; lia|].
  apply (proj2 (audio_forwards_results_in_order one_utterance (connected 2))).
  - reflexivity.
  - reflexivity.
  - repeat constructor; discriminate.
  - simpl; lia.
Defined.

Lemma audio_catches_every_exception_witness :
  calls (world_after (audio broken_stream) (connected 5)) =
    [Send "[INTERIM]hel" true; Send error_frame true; Close]
  /\ result_of (audio broken_stream) (connected 5) = Returned tt.
Proof.
  split.
  - apply (proj1 (proj2 (audio_catches_every_exception
                           broken_stream (connected 5)))
             (Exn "ServiceUnavailable" "503 recognizer unavailable")
             {| alive := 4; calls := [Send "[INTERIM]hel" true];
                stdout := [] |}).
    reflexivity.
  - apply (proj1 (audio_catches_every_exception broken_stream (connected 5))).
Defined.

End RelayProofs.

(** ** The ingest thread and the request generator *)

Module IngestProofs.
Import Relay.

Lemma arrivals_data (cs : list AudioChunk) (rest : list received) :
  arrivals (map Data cs ++ rest) = cs ++ arrivals rest.
Proof. induction cs as [|c cs IH]; simpl; congruence. Qed.

Lemma arrivals_ended (cs : list AudioChunk) how (rest : list received) :
  arrivals (map Data cs ++ Ended how :: rest) = cs.
Proof. rewrite arrivals_data. simpl. apply app_nil_r. Qed.

Lemma start_inv (client : list received) : session_inv client (start client).
Proof. exists [], []. simpl. auto. Qed.

Lemma step_inv (client : list received) (t : thread) (s s' : session) :
  session_inv client s -> step t s = Some s' -> session_inv client s'.
Proof.
  intros (ds & qs & Hy & H) Hstep.
  destruct s as [inb q ing deq yl gen]. simpl in *.
  destruct t; simpl in Hstep.
  - unfold receive_audio_step in Hstep; simpl in Hstep.
    destruct ing; [|discriminate].
    destruct gen; [|contradiction].
    destruct H as (Hd & Hq & Hc).
    destruct inb as [|[data|how] rest]; [discriminate| |];
      inversion Hstep; subst; clear Hstep.
    + exists ds, (qs ++ [data]). simpl. repeat split; auto.
      * rewrite map_app. reflexivity.
      * rewrite !map_app, <- !app_assoc. reflexivity.
    + exists ds, qs. simpl. repeat split; auto. exists how. reflexivity.
  - unfold request_generator_step in Hstep; simpl in Hstep.
    destruct gen; [|discriminate].
    destruct ing.
    + destruct H as (Hd & Hq & Hc).
      destruct qs as [|c qs]; subst q; simpl in Hstep; [discriminate|].
      inversion Hstep; subst; clear Hstep.
      exists (ds ++ [c]), qs. simpl. repeat split.
      * rewrite map_app. reflexivity.
      * rewrite map_app. reflexivity.
      * rewrite <- app_assoc. reflexivity.
    + destruct H as (Hd & Hq & how & Hc).
      destruct qs as [|c qs]; subst q; simpl in Hstep;
        inversion Hstep; subst; clear Hstep.
      * exists ds, []. simpl. repeat split; auto. exists how. reflexivity.
      * exists (ds ++ [c]), qs. simpl. repeat split.
        -- rewrite map_app. reflexivity.
        -- rewrite map_app. reflexivity.
        -- exists how. rewrite <- app_assoc. reflexivity.
Qed.

Lemma run_inv (client : list received) (schedule : list thread) :
  forall s, session_inv client s -> session_inv client (run schedule s).
Proof.
  induction schedule as [|t sch IH]; intros s H; simpl; [exact H|].
  apply IH. destruct (step t s) as [s'|] eqn:E; [|exact H].
  exact (step_inv _ _ _ _ H E).
Qed.

Lemma run_app (a b : list thread) (s : session) :
  run (a ++ b) s = run b (run a s).
Proof. revert s. induction a as [|t a IH]; intro s; simpl; auto. Qed.

Lemma not_in_map_some (ds : list AudioChunk) : ~ In None (map Some ds).
Proof. induction ds; simpl; intuition discriminate. Qed.

(** Data before an end signal, read in two ways. *)
Lemma split_at_end (l1 l2 : list AudioChunk) how (x rest : list received) :
  map Data l1 ++ x = map Data l2 ++ Ended how :: rest ->
  exists l3, x = map Data l3 ++ Ended how :: rest /\ l2 = l1 ++ l3.
Proof.
  revert l2. induction l1 as [|a l1 IH]; intros l2 H; simpl in H.
  - exists l2. auto.
  - destruct l2 as [|b l2]; simpl in H; [discriminate|].
    inversion H; subst. destruct (IH _ H2) as (l3 & -> & ->).
    exists l3. auto.
Qed.

Lemma ingest_over (n : nat) (s : session) :
  ingest s = Finished -> run (repeat Ingest n) s = s.
Proof.
  intro H. induction n as [|n IH]; simpl; [reflexivity|].
  unfold receive_audio_step. rewrite H. exact IH.
Qed.

(** Given the turns, the ingest thread reads up to the end signal, puts the
    sentinel and finishes. *)
Lemma ingest_completes (xs : list AudioChunk) how rest :
  forall n s,
    ingest s = Running ->
    inbox s = map Data xs ++ Ended how :: rest ->
    List.length xs < n ->
    ingest (run (repeat Ingest n) s) = Finished /\
    audio_q (run (repeat Ingest n) s) = audio_q s ++ map Some xs ++ [None] /\
    generator (run (repeat Ingest n) s) = generator s.
Proof.
  induction xs as [|x xs IH]; intros n s Hi Hb Hn;
    (destruct n as [|n]; [simpl in Hn; lia|]); simpl in *;
    unfold receive_audio_step; rewrite Hi, Hb.
  - rewrite ingest_over by reflexivity. simpl. auto.
  - match goal with
    | |- context [run _ ?s1] =>
        destruct (IH n s1) as (H1 & H2 & H3);
        [reflexivity|reflexivity|simpl in Hn; lia|]
    end.
    rewrite H1, H2, H3. simpl. rewrite <- app_assoc. simpl. auto.
Qed.

Lemma generator_stays_finished (schedule : list thread) :
  forall s, generator s = Finished -> generator (run schedule s) = Finished.
Proof.
  induction schedule as [|t sch IH]; intros s H; simpl; [exact H|].
  apply IH. destruct t; simpl.
  - unfold receive_audio_step.
    destruct (ingest s); [|exact H].
    destruct (inbox s) as [|[|] ?]; simpl; exact H.
  - unfold request_generator_step. rewrite H. exact H.
Qed.

(** Given the turns, the generator empties the queue down to the sentinel
    and finishes. *)
Lemma generator_completes (xs : list AudioChunk) q :
  forall n s,
    generator s = Running ->
    audio_q s = map Some xs ++ None :: q ->
    List.length xs < n ->
    generator (run (repeat Generator n) s) = Finished.
Proof.
  induction xs as [|x xs IH]; intros n s Hg Hq Hn;
    (destruct n as [|n]; [simpl in Hn; lia|]); simpl in *;
    unfold request_generator_step; rewrite Hg, Hq.
  - apply generator_stays_finished. reflexivity.
  - apply IH; simpl; auto. lia.
Qed.

(** C3. Whatever the client delivers and however the ingest thread and the
    generator are interleaved: the requests yielded so far are the first
    payloads received, in arrival order; the generator is over exactly when
    it has dequeued the sentinel, and by then it has yielded every payload
    that arrived before the channel ended; the sentinel is in the queue's
    history exactly when the ingest thread is over, which is exactly when
    it has read the end of the channel ([None] or [ConnectionClosed]); and
    when the client's channel ends at all, letting both threads run on
    brings the generator to its end. *)
Theorem request_sequence_is_fifo
    (client : list received) (schedule : list thread) :
  (exists rest,
      map request (arrivals client) =
        yielded (run schedule (start client)) ++ rest)
  /\ (generator (run schedule (start client)) = Finished <->
      In None (dequeued (run schedule (start client))))
  /\ (generator (run schedule (start client)) = Finished ->
      yielded (run schedule (start client)) = map request (arrivals client)
      /\ ingest (run schedule (start client)) = Finished)
  /\ (ingest (run schedule (start client)) = Finished <->
      In None (dequeued (run schedule (start client))
               ++ audio_q (run schedule (start client))))
  /\ (ingest (run schedule (start client)) = Finished <->
      exists cs how,
        client =
          map Data cs ++ Ended how :: inbox (run schedule (start client)))
  /\ (forall cs how rest,
        client = map Data cs ++ Ended how :: rest ->
        generator
          (run (schedule ++ repeat Ingest (List.length client)
                         ++ repeat Generator (List.length client))
               (start client)) = Finished).
Proof.
  pose proof (run_inv client schedule _ (start_inv client)) as Hinv.
  rewrite !run_app.
  set (s := run schedule (start client)) in *.
  destruct Hinv as (ds & qs & Hy & H).
  destruct (ingest s) eqn:Ei, (generator s) eqn:Eg; try contradiction.
  - (* both running *)
    destruct H as (Hd & Hq & Hc).
    rewrite Hy, Hd, Hq, <- map_app.
    split; [|split; [|split; [|split; [|split]]]].
    + exists (map request (qs ++ arrivals (inbox s))).
      rewrite Hc, arrivals_data, <- map_app, <- app_assoc. reflexivity.
    + split; [discriminate|].
      intro Hin. destruct (not_in_map_some _ Hin).
    + discriminate.
    + split; [discriminate|].
      intro Hin. destruct (not_in_map_some _ Hin).
    + split; [discriminate|].
      intros (cs & how & Hc'). rewrite Hc in Hc'.
      destruct (split_at_end _ _ _ _ _ Hc') as (l3 & Hx & _).
      apply (f_equal (@List.length _)) in Hx.
      rewrite length_app in Hx. simpl in Hx. lia.
    + intros cs how rest Hc'. rewrite Hc in Hc'.
      destruct (split_at_end _ _ _ _ _ Hc') as (l3 & Hx & Hl).
      assert (Hlen : List.length (ds ++ qs ++ l3) < List.length client).
      { rewrite Hc, Hx, !length_app, !length_map, !length_app. simpl. lia. }
      rewrite !length_app in Hlen.
      destruct (ingest_completes l3 how rest (List.length client) s Ei Hx)
        as (_ & Ha & Hg); [lia|].
      apply (generator_completes (qs ++ l3) []).
      * rewrite Hg. exact Eg.
      * rewrite Ha, Hq, map_app, <- app_assoc. reflexivity.
      * rewrite length_app. lia.
  - (* the ingest thread is over, the generator is not *)
    destruct H as (Hd & Hq & how & Hc).
    rewrite Hy, Hd, Hq.
    split; [|split; [|split; [|split; [|split]]]].
    + exists (map request qs).
      rewrite Hc, arrivals_ended, map_app. reflexivity.
    + split; [discriminate|].
      intro Hin. destruct (not_in_map_some _ Hin).
    + discriminate.
    + split; [|reflexivity].
      intros _. apply in_or_app. right. apply in_or_app. right. simpl. auto.
    + split; [|reflexivity].
      intros _. exists (ds ++ qs), how. exact Hc.
    + intros cs how' rest Hc'.
      rewrite ingest_over by exact Ei.
      apply (generator_completes qs []); auto.
      rewrite Hc, !length_app, !length_map, !length_app. simpl. lia.
  - (* both over *)
    destruct H as (Hd & Hq & -> & how & Hc). rewrite app_nil_r in Hc.
    rewrite Hy, Hd, Hq.
    split; [|split; [|split; [|split; [|split]]]].
    + exists []. rewrite Hc, arrivals_ended, app_nil_r. reflexivity.
    + split; [|reflexivity].
      intros _. apply in_or_app. right. simpl. auto.
    + intros _. rewrite Hc, arrivals_ended. auto.
    + split; [|reflexivity].
      intros _. rewrite app_nil_r. apply in_or_app. right. simpl. auto.
    + split; [|reflexivity].
      intros _. exists ds, how. exact Hc.
    + intros cs how' rest Hc'. do 2 apply generator_stays_finished. exact Eg.
Qed.

Lemma request_sequence_is_fifo_witness :
  two_chunks = map Data ["a"; "b"] ++ [Ended RaisedConnectionClosed]
  /\ generator
       (run ([Ingest; Generator] ++ repeat Ingest 3 ++ repeat Generator 3)
            (start two_chunks)) = Finished.
Proof.
  split; [reflexivity|].
  apply (proj2 (proj2 (proj2 (proj2 (proj2
           (request_sequence_is_fifo two_chunks [Ingest; Generator])))))
           ["a"; "b"] RaisedConnectionClosed []).
  reflexivity.
Defined.

End IngestProofs.

(** ** Strings *)

Module PyProofs.

(** The methods on small inputs, as Python answers on them. *)

Example strip_ex : Py.strip ("  a b " +++ nl) = "a b".
Proof. reflexivity. Qed.
Example splitlines_ex :
  Py.splitlines ("a" +++ cr +++ nl +++ nl +++ "b" +++ nl) = ["a"; ""; "b"].
Proof. reflexivity. Qed.
Example splitlines_ex2 : Py.splitlines nl = [""] /\ Py.splitlines "" = [].
Proof. split; reflexivity. Qed.
Example find_ex : Py.find "{" "ab{c{" = 2%Z /\ Py.find "{" "abc" = (-1)%Z.
Proof. split; reflexivity. Qed.
Example rfind_ex : Py.rfind "}" "a}b}c" = 3%Z /\ Py.rfind "}" "abc" = (-1)%Z.
Proof. split; reflexivity. Qed.
Example slice_ex :
  Py.slice "hello" (Some (-1)%Z) (Some 0%Z) = ""
  /\ Py.slice "hello" (Some 1%Z) (Some 3%Z) = "el"
  /\ Py.slice "hello" None (Some 4%Z) = "hell"
  /\ Py.slice "hi" None (Some 4%Z) = "hi".
Proof. repeat split; reflexivity. Qed.
Example split1_ex :
  Py.split1 "." "1. a.b" = ["1"; " a.b"] /\ Py.split1 "." "ab" = ["ab"].
Proof. split; reflexivity. Qed.
Example replace_ex :
  Py.replace "```" "" "````a```json" = "`ajson"
  /\ Py.replace "" "-" "ab" = "-a-b-".
Proof. split; reflexivity. Qed.

Lemma prefix_char (c x : ascii) (s : string) :
  prefix (String c EmptyString) (String x s) = Ascii.eqb x c.
Proof.
  simpl. destruct (ascii_dec c x) as [->|H].
  - rewrite Ascii.eqb_refl. destruct s; reflexivity.
  - symmetry. apply Ascii.eqb_neq. congruence.
Qed.

(** [find] of a single character is its first position. *)
Lemma find_from_char (c : ascii) (s : string) (i : Z) :
  Py.find_from (String c EmptyString) s i =
  match Py.first_index c s with
  | Some k => (i + Z.of_nat k)%Z
  | None => (-1)%Z
  end.
Proof.
  revert i. induction s as [|x s IH]; intro i.
  - reflexivity.
  - unfold Py.find_from; fold Py.find_from. rewrite prefix_char.
    simpl Py.first_index. destruct (Ascii.eqb x c).
    + f_equal. simpl. lia.
    + rewrite IH. destruct (Py.first_index c s); simpl; lia.
Qed.

Lemma find_char (c : ascii) (s : string) :
  Py.find (String c EmptyString) s =
  match Py.first_index c s with
  | Some k => Z.of_nat k
  | None => (-1)%Z
  end.
Proof.
  unfold Py.find. rewrite find_from_char.
  destruct (Py.first_index c s); reflexivity.
Qed.

(** [rfind] of a single character is its last position. *)
Lemma rfind_from_char (c : ascii) (s : string) (i : Z) :
  (0 <= i)%Z ->
  Py.rfind_from (String c EmptyString) s i =
  match Py.last_index c s with
  | Some k => (i + Z.of_nat k)%Z
  | None => (-1)%Z
  end.
Proof.
  revert i. induction s as [|x s IH]; intros i Hi.
  - reflexivity.
  - unfold Py.rfind_from; fold Py.rfind_from. rewrite prefix_char.
    rewrite IH by lia. simpl Py.last_index.
    destruct (Py.last_index c s) as [k|].
    + destruct (Z.leb_spec 0 (i + 1 + Z.of_nat k)); lia.
    + simpl. destruct (Ascii.eqb x c); simpl; lia.
Qed.

Lemma rfind_char (c : ascii) (s : string) :
  Py.rfind (String c EmptyString) s =
  match Py.last_index c s with
  | Some k => Z.of_nat k
  | None => (-1)%Z
  end.
Proof.
  unfold Py.rfind. rewrite rfind_from_char by lia.
  destruct (Py.last_index c s); reflexivity.
Qed.

Lemma first_index_lt (c : ascii) (s : string) (a : nat) :
  Py.first_index c s = Some a -> a < String.length s.
Proof.
  revert a. induction s as [|x s IH]; intros a H; simpl in *; [discriminate|].
  destruct (Ascii.eqb x c).
  - inversion H. lia.
  - destruct (Py.first_index c s) as [k|]; [|discriminate].
    inversion H. specialize (IH k eq_refl). lia.
Qed.

Lemma last_index_lt (c : ascii) (s : string) (b : nat) :
  Py.last_index c s = Some b -> b < String.length s.
Proof.
  revert b. induction s as [|x s IH]; intros b H; simpl in *; [discriminate|].
  destruct (Py.last_index c s) as [k|].
  - inversion H. specialize (IH k eq_refl). lia.
  - destruct (Ascii.eqb x c); inversion H. lia.
Qed.

Lemma substring_0_length (n : nat) (s : string) : substring n 0 s = EmptyString.
Proof.
  revert n. induction s as [|x s IH]; intros [|n]; simpl; auto.
Qed.

(** When the last occurrence of [c] ends the string, the one-character
    slice at the end is [c]. *)
Lemma substring_last_index (c : ascii) (s : string) (b : nat) :
  Py.last_index c s = Some b ->
  S b = String.length s ->
  substring b 1 s = String c EmptyString.
Proof.
  revert b. induction s as [|x s IH]; intros b H Hl; simpl in *; [discriminate|].
  destruct (Py.last_index c s) as [k|] eqn:E.
  - inversion H; subst. apply IH; auto.
  - destruct (Ascii.eqb x c) eqn:Ex; inversion H; subst.
    apply Ascii.eqb_eq in Ex. subst.
    destruct s; [reflexivity|discriminate].
Qed.

End PyProofs.

(** Removing the fences leaves no fence behind. *)

Module FenceProofs.
Import Http.

Ltac split_ticks :=
  repeat (cbn [prefix Py.replace_from] in *;
          match goal with
          | |- context [ascii_dec ?a ?b] => destruct (ascii_dec a b); subst
          | H : context [ascii_dec ?a ?b] |- _ =>
              destruct (ascii_dec a b); subst
          end);
  cbn [prefix Py.replace_from] in *.

Lemma prefix_fence_inv (s : string) :
  prefix fence s = true -> exists r, s = String "`" (String "`" (String "`" r)).
Proof.
  unfold fence. intro H.
  destruct s as [|c1 [|c2 [|c3 r]]]; split_ticks; try discriminate H.
  exists r. reflexivity.
Qed.

Lemma replace_fence_step (c : ascii) (s : string) :
  Py.replace_from fence EmptyString (String c s) 0 =
  if prefix fence (String c s)
  then Py.replace_from fence EmptyString s 2
  else String c (Py.replace_from fence EmptyString s 0).
Proof. reflexivity. Qed.

(** A text that does not start with a fence does not start with one after
    its tail has lost its fences. *)
Lemma no_fence_ahead (c : ascii) (s : string) :
  prefix fence (String c s) = false ->
  prefix fence (String c (Py.replace_from fence EmptyString s 0)) = false.
Proof.
  intro H.
  destruct s as [|c2 [|c3 s]].
  - exact H.
  - rewrite replace_fence_step.
    unfold fence in *. split_ticks; congruence.
  - rewrite !replace_fence_step.
    unfold fence in *. split_ticks; try congruence.
    destruct s; split_ticks; congruence.
Qed.

Lemma replace_fence_clean_upto (n : nat) :
  forall s i,
    String.length s <= n ->
    Py.find_from fence (Py.replace_from fence EmptyString s 0) i = (-1)%Z.
Proof.
  induction n as [|n IH]; intros s i Hn.
  - destruct s; [reflexivity|simpl in Hn; lia].
  - destruct s as [|c s]; [reflexivity|].
    rewrite replace_fence_step.
    destruct (prefix fence (String c s)) eqn:E.
    + destruct (prefix_fence_inv _ E) as (r & Hr). inversion Hr; subst.
      simpl Py.replace_from at 1. apply IH. simpl in Hn. lia.
    + unfold Py.find_from; fold Py.find_from.
      rewrite (no_fence_ahead _ _ E). apply IH. simpl in Hn. lia.
Qed.

Lemma replace_fence_clean (s : string) :
  Py.find fence (Py.replace fence EmptyString s) = (-1)%Z.
Proof.
  unfold Py.find, Py.replace. simpl Py.is_empty. cbv iota.
  apply (replace_fence_clean_upto (String.length s)). lia.
Qed.

Lemma prefix_app_l (a b s : string) :
  prefix (a +++ b) s = true -> prefix a s = true.
Proof.
  revert s. induction a as [|x a IH]; intros s H.
  - destruct s; reflexivity.
  - destruct s as [|y s]; [discriminate H|].
    cbn [append prefix] in *.
    destruct (ascii_dec x y); [auto|discriminate H].
Qed.

(** A text without [pre] has no occurrence of a string that starts with
    [pre]. *)
Lemma find_from_longer (pre rest s : string) (i j : Z) :
  Py.find_from pre s i = (-1)%Z ->
  (0 <= i)%Z ->
  Py.find_from (pre +++ rest) s j = (-1)%Z.
Proof.
  revert i j. induction s as [|x s IH]; intros i j H Hi;
    unfold Py.find_from in *; fold Py.find_from in *.
  - destruct (prefix (pre +++ rest) EmptyString) eqn:E; [|reflexivity].
    rewrite (prefix_app_l _ _ _ E) in H. lia.
  - destruct (prefix (pre +++ rest) (String x s)) eqn:E.
    + rewrite (prefix_app_l _ _ _ E) in H. lia.
    + destruct (prefix pre (String x s)); [lia|].
      apply (IH (i + 1)%Z); [exact H|lia].
Qed.

(** The cleaned text holds neither of the two fence markers. *)
Lemma clean_has_no_fence (raw_text : string) :
  Py.find "```" (clean raw_text) = (-1)%Z
  /\ Py.find "```json" (clean raw_text) = (-1)%Z.
Proof.
  assert (H : Py.find fence (clean raw_text) = (-1)%Z)
    by apply replace_fence_clean.
  split; [exact H|].
  exact (find_from_longer fence "json" _ 0 0 H (Z.le_refl 0)).
Qed.

End FenceProofs.

(** ** The [/evaluate] and [/generate] handlers *)

Module HttpProofs.
Import Http.
Import PyProofs.

(** What [evaluate] hands to [json.loads], by the braces of the cleaned
    text: with both braces it is the substring from the first opening brace
    through the last closing brace (empty when the two are in the wrong
    order); with an opening brace only, nothing; without an opening brace,
    the closing brace that ends the text, if there is one. *)
Lemma json_part_cases (cleaned : string) :
  json_part cleaned =
  match Py.first_index "{" cleaned, Py.last_index "}" cleaned with
  | Some a, Some b => substring a (S b - a) cleaned
  | Some a, None => EmptyString
  | None, Some b =>
      if (S b =? String.length cleaned)%nat then "}" else EmptyString
  | None, None => EmptyString
  end.
Proof.
  unfold json_part, Py.slice, Py.clamp, Py.len.
  rewrite find_char, rfind_char.
  destruct (Py.first_index "{" cleaned) as [a|] eqn:Ea;
    destruct (Py.last_index "}" cleaned) as [b|] eqn:Eb;
    try (apply first_index_lt in Ea);
    try (pose proof (last_index_lt _ _ _ Eb) as Hb);
    repeat match goal with
           | |- context [(?x <? ?y)%Z] => destruct (Z.ltb_spec x y)
           end;
    try lia.
  - f_equal; lia.
  - replace (Z.to_nat (_ - _)) with 0 by lia. apply substring_0_length.
  - destruct (Nat.eqb_spec (S b) (String.length cleaned)) as [E|E].
    + rewrite <- (substring_last_index _ _ _ Eb E). f_equal; lia.
    + replace (Z.to_nat (_ - _)) with 0 by lia. apply substring_0_length.
  - replace (Z.to_nat (_ - _)) with 0 by lia. apply substring_0_length.
Qed.


Section WithBackend.
Variable model : string -> model_reply.
Variable json_loads : string -> outcome json.
Variable to_str : json -> string.

Lemma missing_or_empty_falsy d key :
  missing_or_empty d key -> py_bool (field d key) = false.
Proof. unfold field. intros [-> | ->]; reflexivity. Qed.

(** The first lines of [evaluate], up to the validation. *)
Lemma evaluate_run (req : request) (w : backend) :
  evaluate model json_loads to_str req w =
  match req with
  | Unparseable e => (Returned (error_response e), w)
  | Body (JDict d) =>
      if negb (py_bool (field d "question")) || negb (py_bool (field d "answer"))
      then (Returned missing_fields, w)
      else
        let prompt :=
          evaluate_prompt to_str (field d "question") (field d "answer") in
        let w' := {| prompts := prompts w ++ [prompt] |} in
        match model prompt with
        | CallFails e => (Returned (error_response e), w')
        | Reply text =>
            match getattr_text text w' with
            | (Raised e, _) => (Returned (error_response e), w')
            | (Returned raw_text, _) =>
                (Returned
                   (jsonify
                      [("evaluation",
                        match json_loads (json_part (clean raw_text)) with
                        | Returned evaluation => evaluation
                        | Raised _ =>
                            JDict [("raw_evaluation", JStr raw_text)]
                        end)] 200), w')
            end
        end
  | Body data => (Returned (error_response (AttributeError data "get")), w)
  end.
Proof.
  destruct req as [e|data]; [reflexivity|].
  destruct data; try reflexivity.
  unfold evaluate, try_except, bind, get_json, dict_get, ret.
  cbv beta iota.
  fold (field d "question"). fold (field d "answer").
  destruct (negb (py_bool (field d "question"))
            || negb (py_bool (field d "answer"))); [reflexivity|].
  unfold generate_content.
  destruct (model _) as [text|e]; [|reflexivity].
  unfold getattr_text.
  destruct text as [s|e].
  - unfold ret. cbv beta iota. destruct (json_loads _); reflexivity.
  - destruct (isinstance e "AttributeError"); [|reflexivity].
    unfold ret. cbv beta iota. destruct (json_loads _); reflexivity.
Qed.

Lemma generate_run (req : request) (w : backend) :
  generate model to_str req w =
  match req with
  | Unparseable e => (Returned (error_response e), w)
  | Body (JDict d) =>
      let prompt := generate_prompt to_str (field d "job_description") in
      let w' := {| prompts := prompts w ++ [prompt] |} in
      match model prompt with
      | CallFails e => (Returned (error_response e), w')
      | Reply (TextRaises e) => (Returned (error_response e), w')
      | Reply (Text text) =>
          (Returned
             (jsonify
                [("questions",
                  JList (map JStr (parse_questions (Py.strip text))))] 200),
           w')
      end
  | Body data => (Returned (error_response (AttributeError data "get")), w)
  end.
Proof.
  destruct req as [e|data]; [reflexivity|].
  destruct data; try reflexivity.
  unfold generate, try_except, bind, get_json, dict_get, ret.
  cbv beta iota. fold (field d "job_description").
  unfold generate_content.
  destruct (model _) as [[text|e]|e]; reflexivity.
Qed.

(** C5. A request whose object body lacks [question] or [answer], or holds
    the empty string there, is answered with status 400 and the error
    payload, and the model is not called. *)
Theorem evaluate_rejects_missing_fields
    (d : list (string * json)) (w : backend) :
  missing_or_empty d "question" \/ missing_or_empty d "answer" ->
  result_of (evaluate model json_loads to_str (Body (JDict d))) w =
    Returned (jsonify [("error", JStr "Missing question or answer")] 400)
  /\ prompts (world_after (evaluate model json_loads to_str (Body (JDict d))) w)
     = prompts w
  /\ upstream_calls
       (world_after (evaluate model json_loads to_str (Body (JDict d))) fresh)
     = 0.
Proof.
  intro H. unfold result_of, world_after. rewrite !evaluate_run.
  assert (negb (py_bool (field d "question"))
          || negb (py_bool (field d "answer")) = true) as ->.
  { destruct H as [H|H]; rewrite (missing_or_empty_falsy _ _ H);
      [reflexivity|apply orb_true_r]. }
  auto.
Qed.

(** C7. When the request passes the validation, the model answers with the
    text [raw] and [json.loads] raises on the extracted part, whatever the
    exception, the handler answers with status 200 and the evaluation
    [{"raw_evaluation": raw}], [raw] being the text as the model gave it. *)
Theorem evaluate_falls_back_to_raw_text
    (d : list (string * json)) (raw : string) (e : exn) (w : backend) :
  py_bool (field d "question") = true ->
  py_bool (field d "answer") = true ->
  model (evaluate_prompt to_str (field d "question") (field d "answer"))
    = Reply (Text raw) ->
  json_loads (json_part (clean raw)) = Raised e ->
  result_of (evaluate model json_loads to_str (Body (JDict d))) w =
    Returned
      (jsonify [("evaluation", JDict [("raw_evaluation", JStr raw)])] 200).
Proof.
  intros Hq Ha Hm Hj. unfold result_of.
  rewrite evaluate_run, Hq, Ha. simpl negb. simpl orb. cbv zeta.
  rewrite Hm. simpl. rewrite Hj. reflexivity.
Qed.

(** C10. [evaluate] always returns a response. Its status is 400 only for
    a body that was parsed and is an object whose [question] or [answer],
    read with the default [""], is empty in Python's sense ([not v]). When
    [get_json] raises [e], or the parsed body is not an object and
    [data.get] raises the [AttributeError], the response has status 500 and
    the payload [{"error": str(e)}], and the model is not called. *)
Theorem evaluate_400_only_for_parsed_objects :
  (forall req w, exists resp,
      result_of (evaluate model json_loads to_str req) w = Returned resp
      /\ (status resp = 400%Z ->
          exists d,
            req = Body (JDict d)
            /\ (py_bool (field d "question") = false
                \/ py_bool (field d "answer") = false)))
  /\ (forall e w,
        evaluate model json_loads to_str (Unparseable e) w =
          (Returned (jsonify [("error", JStr (exn_str e))] 500), w))
  /\ (forall data w,
        (forall d, data <> JDict d) ->
        evaluate model json_loads to_str (Body data) w =
          (Returned
             (jsonify
                [("error", JStr (exn_str (AttributeError data "get")))] 500),
           w)).
Proof.
  split; [|split].
  - intros req w. unfold result_of. rewrite evaluate_run.
    destruct req as [e|data].
    { eexists. split; [reflexivity|discriminate]. }
    destruct data;
      try (eexists; split; [reflexivity|discriminate]).
    destruct (py_bool (field d "question")) eqn:Eq.
    + destruct (py_bool (field d "answer")) eqn:Ea.
      * simpl negb. simpl orb. cbv zeta.
        destruct (model _) as [text|e];
          [|eexists; split; [reflexivity|discriminate]].
        destruct (getattr_text text _) as [[raw|e] w'];
          eexists; (split; [reflexivity|discriminate]).
      * simpl. eexists. split; [reflexivity|]. intros _. exists d. auto.
    + simpl. eexists. split; [reflexivity|]. intros _. exists d. auto.
  - intros e w. apply evaluate_run.
  - intros data w H. rewrite evaluate_run.
    destruct data; try reflexivity. destruct (H d eq_refl).
Qed.

(** C9, as amended. For a body that is an object, whatever it holds,
    [generate] calls the model once, with the prompt built from
    [job_description] read with the default [""]: a missing field and an
    empty one give the same prompt. No request at all is answered with
    status 400: the status is 200 or 500. *)
Theorem generate_has_no_validation :
  (forall d w,
      prompts (world_after (generate model to_str (Body (JDict d))) w) =
        prompts w ++ [generate_prompt to_str (field d "job_description")])
  /\ (forall d,
        missing_or_empty d "job_description" ->
        prompts (world_after (generate model to_str (Body (JDict d))) fresh) =
          [generate_prompt to_str (JStr EmptyString)])
  /\ (forall req w, exists resp,
        result_of (generate model to_str req) w = Returned resp
        /\ (status resp = 200%Z \/ status resp = 500%Z)).
Proof.
  assert (Hd : forall d w,
      prompts (world_after (generate model to_str (Body (JDict d))) w) =
        prompts w ++ [generate_prompt to_str (field d "job_description")]).
  { intros d w. unfold world_after. rewrite generate_run. cbv zeta.
    destruct (model _) as [[text|e]|e]; reflexivity. }
  split; [exact Hd|split].
  - intros d H. rewrite Hd. unfold field.
    destruct H as [-> | ->]; reflexivity.
  - intros req w. unfold result_of. rewrite generate_run.
    destruct req as [e|data]; [eexists; split; [reflexivity|auto]|].
    destruct data; try (eexists; split; [reflexivity|auto]).
    cbv zeta.
    destruct (model _) as [[text|e]|e]; eexists; split;
      try reflexivity; auto.
Qed.

End WithBackend.



(** On a text that has a closing brace and no opening one, such as
    [truncated_text], [find] gives [-1], the slice starts at the last
    character, and [json.loads] is given the closing brace, which it
    refuses as it refuses the empty string: the response is the fallback
    record. *)
Remark json_part_without_opening_brace :
  Py.find "{" (clean truncated_text) = (-1)%Z
  /\ brace_span (clean truncated_text) = None
  /\ json_part (clean truncated_text) = "}"
  /\ result_of (evaluate truncated_model loads_sample str_sample
                         answered_request) fresh =
     Returned
       (jsonify
          [("evaluation", JDict [("raw_evaluation", JStr truncated_text)])]
          200).
Proof. repeat split; vm_compute; reflexivity. Qed.

Lemma evaluate_rejects_missing_fields_witness :
  missing_or_empty [("question", JStr "Why us?")] "answer"
  /\ result_of (evaluate prose_model loads_sample str_sample
                         (Body (JDict [("question", JStr "Why us?")]))) fresh =
     Returned (jsonify [("error", JStr "Missing question or answer")] 400).
Proof.
  assert (H : missing_or_empty [("question", JStr "Why us?")] "answer")
    by (left; reflexivity).
  split; [exact H|].
  apply (proj1 (evaluate_rejects_missing_fields
                  prose_model loads_sample str_sample
                  [("question", JStr "Why us?")] fresh (or_intror H))).
Defined.

Lemma evaluate_falls_back_to_raw_text_witness :
  loads_sample (json_part (clean "I would rate this answer 7 out of 10.")) =
    Raised (Exn "JSONDecodeError" "Expecting value: line 1 column 1 (char 0)")
  /\ result_of (evaluate prose_model loads_sample str_sample answered_request)
               fresh =
     Returned
       (jsonify
          [("evaluation",
            JDict [("raw_evaluation",
                    JStr "I would rate this answer 7 out of 10.")])] 200).
Proof.
  split; [reflexivity|].
  apply (evaluate_falls_back_to_raw_text
           prose_model loads_sample str_sample
           [("question", JStr "Why us?"); ("answer", JStr "Because.")]
           "I would rate this answer 7 out of 10."
           (Exn "JSONDecodeError" "Expecting value: line 1 column 1 (char 0)")
           fresh); reflexivity.
Defined.

Lemma evaluate_400_only_for_parsed_objects_witness :
  evaluate prose_model loads_sample str_sample (Body (JList [])) fresh =
    (Returned
       (jsonify [("error", JStr "'list' object has no attribute 'get'")] 500),
     fresh).
Proof.
  apply (proj2 (proj2 (evaluate_400_only_for_parsed_objects
                         prose_model loads_sample str_sample))
           (JList []) fresh).
  intros d H. discriminate H.
Defined.

(** C9 as stated fails on a body that is not an object: [data.get] raises,
    the handler answers 500 and the model is never called. *)
Lemma generate_skips_model_on_list_body :
  ~ calls_model_once numbered_model str_sample (Body (JList [])).
Proof. unfold calls_model_once. vm_compute. discriminate. Qed.

Lemma generate_has_no_validation_witness :
  missing_or_empty [] "job_description"
  /\ prompts (world_after (generate numbered_model str_sample (Body (JDict [])))
                          fresh) =
     [generate_prompt str_sample (JStr EmptyString)].
Proof.
  assert (H : missing_or_empty [] "job_description") by (left; reflexivity).
  split; [exact H|].
  apply (proj1 (proj2 (generate_has_no_validation numbered_model str_sample))
           [] H).
Defined.

End HttpProofs.

(** ** The line parser of [generate] *)

Module LineProofs.
Import Http.
Import PyProofs.

Lemma fold_add_line (lines acc : list string) :
  fold_left add_line lines acc =
  acc ++ map question_of (filter Py.truthy (map Py.strip lines)).
Proof.
  revert acc. induction lines as [|l lines IH]; intro acc; simpl.
  - rewrite app_nil_r. reflexivity.
  - rewrite IH. unfold add_line.
    destruct (Py.truthy (Py.strip l)); simpl.
    + rewrite <- app_assoc. reflexivity.
    + reflexivity.
Qed.

(** The loop of [generate] as a whole: the lines are stripped, the blank
    ones dropped, and each of the others gives one question. *)
Lemma parse_questions_eq (questions_text : string) :
  parse_questions questions_text =
  map question_of
      (filter Py.truthy (map Py.strip (Py.splitlines questions_text))).
Proof. unfold parse_questions. apply fold_add_line. Qed.

(** A line without a marker is its own question. *)
Lemma question_of_plain (line : string) :
  has_marker line = false -> question_of line = line.
Proof. unfold question_of. intros ->. reflexivity. Qed.

Lemma first_index_substring (c : ascii) (s : string) :
  forall k i,
    Py.first_index c (substring 0 k s) = Some i ->
    Py.first_index c s = Some i /\ i < k.
Proof.
  induction s as [|x s IH]; intros [|k] i H; simpl in *; try discriminate.
  destruct (Ascii.eqb x c).
  - inversion H. split; [reflexivity|lia].
  - destruct (Py.first_index c (substring 0 k s)) as [j|] eqn:E;
      [|discriminate].
    destruct (IH _ _ E) as (-> & Hj). inversion H. simpl. split; [auto|lia].
Qed.

(** A line with a marker loses everything up to its first period, which is
    among its first four characters, and the rest is stripped. *)
Lemma question_of_marker (line : string) :
  has_marker line = true ->
  exists i,
    Py.first_index "." line = Some i /\ i < 4 /\
    question_of line =
      Py.strip (Py.slice line (Some (Z.of_nat i + 1)%Z) None).
Proof.
  intro H. unfold question_of. rewrite H.
  unfold has_marker in H. destruct (Py.first_char line); [|discriminate].
  apply andb_prop in H. destruct H as (_ & H).
  unfold Py.contains in H. rewrite find_char in H.
  unfold Py.slice at 1 in H.
  destruct (Py.first_index "." (substring _ _ line)) as [i|] eqn:E;
    [|discriminate].
  simpl Z.to_nat at 1 in E.
  destruct (first_index_substring _ _ _ _ E) as (Hi & Hlt).
  exists i. split; [exact Hi|]. split.
  - unfold Py.clamp in Hlt. simpl in Hlt. lia.
  - unfold Py.split1. rewrite find_char, Hi.
    destruct (Z.ltb_spec (Z.of_nat i) 0); [lia|]. reflexivity.
Qed.

(** When no line carries a marker, the questions are the stripped
    non-blank lines, none of them empty. *)
Lemma parse_questions_without_markers (questions_text : string) :
  (forall l, In l (Py.splitlines questions_text) ->
             has_marker (Py.strip l) = false) ->
  parse_questions questions_text =
    filter Py.truthy (map Py.strip (Py.splitlines questions_text))
  /\ Forall (fun q => q <> EmptyString) (parse_questions questions_text).
Proof.
  rewrite parse_questions_eq.
  induction (Py.splitlines questions_text) as [|l ls IH]; intro H; simpl.
  - split; constructor.
  - destruct IH as (IH1 & IH2); [intros; apply H; right; assumption|].
    destruct (Py.truthy (Py.strip l)) eqn:E; simpl; [|auto].
    rewrite question_of_plain by (apply H; left; reflexivity).
    split; [rewrite IH1; reflexivity|].
    constructor; [|exact IH2].
    intro Hq. rewrite Hq in E. discriminate.
Qed.

(** C8. The text [numbered_text] ends with the line [4.]: the line is not
    blank, it carries a marker, and nothing is left once the marker is
    gone, so that the list [generate] returns holds an empty string. *)
Theorem generate_returns_empty_question :
  parse_questions (Py.strip numbered_text) =
    ["Tell me about yourself"; "Why do you want this role?";
     "Describe a hard bug you fixed."; EmptyString]
  /\ result_of (generate numbered_model str_sample engineer_request) fresh =
     Returned
       (jsonify
          [("questions",
            JList [JStr "Tell me about yourself";
                   JStr "Why do you want this role?";
                   JStr "Describe a hard bug you fixed.";
                   JStr EmptyString])] 200).
Proof. split; vm_compute; reflexivity. Qed.

End LineProofs.

(** ** More on the drain loop of [audio] *)

Module RelayMore.
Import Relay.
Import Observed.
Import RelayProofs.

(** When [streaming_recognize] itself raises, no result is forwarded: the
    handler prints the exception, tries the error frame, which reaches a
    client that is still there, and closes. *)
Theorem audio_call_error (up : upstream) (e : exn) (w : ws) :
  call_error up = Some e ->
  calls (world_after (audio up) w) =
    calls w ++ [Send error_frame (0 <? alive w)%nat; Close]
  /\ stdout (world_after (audio up) w) = stdout w ++ [e]
  /\ outbox (world_after (audio up) w) =
     outbox w ++ (if (0 <? alive w)%nat then [error_frame] else []).
Proof.
  intro H. unfold world_after. rewrite audio_run, drain_run, H. simpl.
  repeat split. unfold outbox. simpl. rewrite flat_map_app. simpl.
  destruct (alive w); reflexivity.
Qed.

Lemma audio_call_error_witness :
  call_error refused_call = Some (Exn "PermissionDenied" "403 quota exceeded")
  /\ outbox (world_after (audio refused_call) (connected 3)) = [error_frame].
Proof.
  split; [reflexivity|].
  apply (proj2 (proj2 (audio_call_error refused_call
                         (Exn "PermissionDenied" "403 quota exceeded")
                         (connected 3) eq_refl))).
Defined.

(** The loop over the results up to a result without alternative. *)
Lemma for_each_forward_gap pre r post (w : ws) :
  Forall (fun r => alternatives r <> []) pre ->
  alternatives r = [] ->
  List.length pre <= alive w ->
  for_each (pre ++ r :: post) forward w =
  (Raised IndexError,
   {| alive := alive w - List.length pre;
      calls := calls w ++ map (fun r => Send (framed r) true) pre;
      stdout := stdout w |}).
Proof.
  intros Hpre Hr Hlen.
  rewrite for_each_app, bind_run, (for_each_forward_healthy _ _ Hpre Hlen).
  simpl. rewrite bind_run, forward_run, Hr. reflexivity.
Qed.

Lemma outbox_delivered (rs : list StreamingRecognitionResult) :
  flat_map delivered_frame (map (fun r => Send (framed r) true) rs) =
  map framed rs.
Proof. induction rs; simpl; congruence. Qed.

(** A result without alternative ends the forwarding: [alternatives[0]]
    raises [IndexError], the results before it have been forwarded, those
    after it never are, and the client that is still there gets the error
    frame. *)
Theorem audio_result_without_alternative
    (up : upstream) pre r post (w : ws) :
  call_error up = None ->
  all_results up = pre ++ r :: post ->
  Forall (fun r => alternatives r <> []) pre ->
  alternatives r = [] ->
  List.length pre < alive w ->
  outbox (world_after (audio up) w) =
    outbox w ++ map framed pre ++ [error_frame]
  /\ stdout (world_after (audio up) w) = stdout w ++ [IndexError].
Proof.
  intros Hc Hrs Hpre Hr Hlen. unfold world_after.
  rewrite audio_run, drain_run, Hc, Hrs.
  rewrite (for_each_forward_gap _ _ _ _ Hpre Hr) by lia.
  simpl. split; [|reflexivity].
  unfold outbox. simpl. rewrite !flat_map_app, outbox_delivered. simpl.
  destruct (alive w - List.length pre) as [|n] eqn:E; [lia|].
  simpl. rewrite <- app_assoc. reflexivity.
Qed.

Lemma audio_result_without_alternative_witness :
  all_results gap_stream = [interim_hel] ++ no_alternative :: [final_hello]
  /\ outbox (world_after (audio gap_stream) (connected 5)) =
     ["[INTERIM]hel"; error_frame].
Proof.
  split; [reflexivity|].
  destruct (audio_result_without_alternative
              gap_stream [interim_hel] no_alternative [final_hello]
              (connected 5)) as [H _];
    [reflexivity|reflexivity|repeat constructor; discriminate
    |reflexivity|simpl; lia|exact H].
Defined.

(** When the response stream breaks after its last result, every result
    has been forwarded before the exception is seen: the client gets all
    the frames and then the error frame. *)
Theorem audio_stream_break (up : upstream) (e : exn) (w : ws) :
  call_error up = None ->
  ending up = Breaks e ->
  Forall (fun r => alternatives r <> []) (all_results up) ->
  List.length (all_results up) < alive w ->
  outbox (world_after (audio up) w) =
    outbox w ++ map framed (all_results up) ++ [error_frame]
  /\ stdout (world_after (audio up) w) = stdout w ++ [e].
Proof.
  intros Hc He Hall Hlen. unfold world_after.
  rewrite audio_run, drain_run, Hc, He.
  rewrite (for_each_forward_healthy _ _ Hall) by lia.
  simpl. split; [|reflexivity].
  unfold outbox. simpl. rewrite !flat_map_app, outbox_delivered. simpl.
  destruct (alive w - List.length (all_results up)) as [|n] eqn:E; [lia|].
  simpl. rewrite <- app_assoc. reflexivity.
Qed.

Lemma audio_stream_break_witness :
  ending broken_stream =
    Breaks (Exn "ServiceUnavailable" "503 recognizer unavailable")
  /\ outbox (world_after (audio broken_stream) (connected 2)) =
     ["[INTERIM]hel"; error_frame].
Proof.
  split; [reflexivity|].
  destruct (audio_stream_break
              broken_stream
              (Exn "ServiceUnavailable" "503 recognizer unavailable")
              (connected 2)) as [H _];
    [reflexivity|reflexivity|repeat constructor; discriminate
    |simpl; lia|exact H].
Defined.

(** In the loop at most one send fails, and a failed send ends the loop
    with the peer gone. *)
Lemma for_each_forward_failures (rs : list StreamingRecognitionResult) :
  forall w r w1,
    for_each rs forward w = (r, w1) ->
    exists sends,
      calls w1 = calls w ++ sends /\
      List.length (filter failed_send sends) <= 1 /\
      (filter failed_send sends <> [] -> alive w1 = 0 /\ r <> Returned tt).
Proof.
  induction rs as [|x rs IH]; intros w r w1 H; simpl in H.
  - inversion H; subst. exists []. rewrite app_nil_r.
    simpl. repeat split; auto; congruence.
  - rewrite bind_run, forward_run in H.
    destruct (alternatives x) as [|a l].
    + inversion H; subst. exists []. rewrite app_nil_r.
      simpl. repeat split; auto; congruence.
    + unfold ws_send in H. destruct (alive w) as [|n].
      * inversion H; subst. exists [Send (framed x) false].
        simpl. repeat split; auto. discriminate.
      * destruct (IH _ _ _ H) as (sends & Hc & Hl & Hf). simpl in Hc.
        exists (Send (framed x) true :: sends). simpl.
        rewrite Hc, <- app_assoc. auto.
Qed.

(** However long the stream, at most two sends of a session fail: the one
    that finds the client gone, and the error frame that follows it. The
    handler does not go on trying the later results. *)
Theorem audio_at_most_two_failed_sends (up : upstream) (w : ws) :
  exists sent,
    calls (world_after (audio up) w) = calls w ++ sent
    /\ List.length (filter failed_send sent) <= 2.
Proof.
  unfold world_after. rewrite audio_run, drain_run.
  destruct (call_error up) as [e|].
  - exists [Send error_frame (0 <? alive w)%nat; Close]. split; [reflexivity|].
    simpl. destruct (0 <? alive w)%nat; simpl; lia.
  - destruct (for_each (all_results up) forward w) as [r w1] eqn:E.
    destruct (for_each_forward_failures _ _ _ _ E) as (sends & Hc & Hl & _).
    destruct r as [[]|e].
    + destruct (ending up) as [|e].
      * exists (sends ++ [Close]). simpl. rewrite Hc, <- app_assoc.
        split; [reflexivity|]. rewrite filter_app, length_app. simpl. lia.
      * exists (sends ++ [Send error_frame (0 <? alive w1)%nat; Close]).
        simpl. rewrite Hc, <- app_assoc. split; [reflexivity|].
        rewrite filter_app, length_app. simpl.
        destruct (0 <? alive w1)%nat; simpl; lia.
    + exists (sends ++ [Send error_frame (0 <? alive w1)%nat; Close]).
      simpl. rewrite Hc, <- app_assoc. split; [reflexivity|].
      rewrite filter_app, length_app. simpl.
      destruct (0 <? alive w1)%nat; simpl; lia.
Qed.

(** A stream that ends without a single result, whatever the number of
    empty responses, makes the handler send nothing and print nothing: it
    only closes the channel. *)
Theorem audio_without_results (up : upstream) (w : ws) :
  call_error up = None ->
  ending up = Exhausted ->
  all_results up = [] ->
  calls (world_after (audio up) w) = calls w ++ [Close]
  /\ stdout (world_after (audio up) w) = stdout w.
Proof.
  intros Hc He Hr. unfold world_after.
  rewrite audio_run, drain_run, Hc, He, Hr. simpl. auto.
Qed.

Lemma audio_without_results_witness :
  all_results silent_stream = []
  /\ calls (world_after (audio silent_stream) (connected 1)) = [Close].
Proof.
  split; [reflexivity|].
  destruct (audio_without_results silent_stream (connected 1)) as [H _];
    [reflexivity|reflexivity|reflexivity|exact H].
Defined.

End RelayMore.

(** ** More on the ingest thread and the request generator *)

Module IngestMore.
Import Relay.
Import Observed.
Import IngestProofs.

Lemma chunks_some (cs : list AudioChunk) : chunks (map Some cs) = cs.
Proof. induction cs; simpl; congruence. Qed.

Lemma chunks_app (a b : list (option AudioChunk)) :
  chunks (a ++ b) = chunks a ++ chunks b.
Proof. apply flat_map_app. Qed.

Lemma contents_request (cs : list AudioChunk) :
  map audio_content (map request cs) = cs.
Proof. induction cs; simpl; congruence. Qed.

(** Nothing is lost, repeated or reordered on the way: at every moment of
    every interleaving, the payloads already yielded, those waiting in the
    queue and those the ingest thread has still to read make up, in this
    order, the payloads that arrive before the channel ends. *)
Theorem payloads_are_conserved
    (client : list received) (schedule : list thread) :
  map audio_content (yielded (run schedule (start client)))
  ++ chunks (audio_q (run schedule (start client)))
  ++ unread (run schedule (start client))
  = arrivals client.
Proof.
  pose proof (run_inv client schedule _ (start_inv client)) as Hinv.
  set (s := run schedule (start client)) in *.
  destruct Hinv as (ds & qs & Hy & H). unfold unread.
  rewrite Hy, contents_request.
  destruct (ingest s), (generator s); try contradiction.
  - destruct H as (_ & Hq & Hc).
    rewrite Hq, Hc, chunks_some, arrivals_data, <- app_assoc. reflexivity.
  - destruct H as (_ & Hq & how & Hc).
    rewrite Hq, Hc, chunks_app, chunks_some, arrivals_ended. simpl.
    rewrite !app_nil_r. reflexivity.
  - destruct H as (_ & Hq & Hn & how & Hc).
    rewrite Hq, Hc, Hn, arrivals_ended. simpl. rewrite !app_nil_r.
    reflexivity.
Qed.

(** As long as the client neither closes the channel nor makes
    [ws.receive()] return [None], neither task ever ends, whatever the
    scheduling: the sentinel is the only way out of both loops. *)
Theorem open_channel_keeps_tasks_running
    (client : list received) (schedule : list thread) :
  (forall how, ~ In (Ended how) client) ->
  ingest (run schedule (start client)) = Running
  /\ generator (run schedule (start client)) = Running
  /\ ~ In None (audio_q (run schedule (start client))).
Proof.
  intro Hopen.
  pose proof (run_inv client schedule _ (start_inv client)) as Hinv.
  set (s := run schedule (start client)) in *.
  destruct Hinv as (ds & qs & Hy & H).
  destruct (ingest s), (generator s); try contradiction.
  - destruct H as (_ & Hq & _). rewrite Hq.
    repeat split. apply not_in_map_some.
  - destruct H as (_ & _ & how & Hc). exfalso. apply (Hopen how).
    rewrite Hc. apply in_or_app. right. left. reflexivity.
  - destruct H as (_ & _ & _ & how & Hc). exfalso. apply (Hopen how).
    rewrite Hc. apply in_or_app. right. left. reflexivity.
Qed.

Lemma open_channel_keeps_tasks_running_witness :
  (forall how, ~ In (Ended how) staying_client)
  /\ generator
       (run [Ingest; Generator; Ingest; Ingest; Generator; Generator;
             Generator; Ingest]
            (start staying_client)) = Running.
Proof.
  assert (H : forall how, ~ In (Ended how) staying_client).
  { intros how [E|[E|[E|[]]]]; discriminate E. }
  split; [exact H|].
  apply (proj1 (proj2 (open_channel_keeps_tasks_running staying_client _ H))).
Defined.

Lemma sentinel_split (cs : list AudioChunk) pre post :
  map Some cs ++ [None] = pre ++ None :: post ->
  pre = map Some cs /\ post = [].
Proof.
  revert pre. induction cs as [|c cs IH]; intros pre H; simpl in H.
  - destruct pre as [|p pre]; simpl in H.
    + inversion H. auto.
    + inversion H. destruct pre; discriminate.
  - destruct pre as [|p pre]; simpl in H; [discriminate|].
    inversion H; subst. destruct (IH _ H2) as (-> & ->). auto.
Qed.

(** The sentinel is put at most once and nothing is ever put after it:
    wherever [None] stands in the history of the queue, payloads only come
    before it and nothing comes after. *)
Theorem sentinel_is_last
    (client : list received) (schedule : list thread) pre post :
  dequeued (run schedule (start client))
  ++ audio_q (run schedule (start client)) = pre ++ None :: post ->
  post = [] /\ ~ In None pre.
Proof.
  pose proof (run_inv client schedule _ (start_inv client)) as Hinv.
  set (s := run schedule (start client)) in *.
  destruct Hinv as (ds & qs & Hy & H). intro E.
  destruct (ingest s), (generator s); try contradiction.
  - destruct H as (Hd & Hq & _). rewrite Hd, Hq, <- map_app in E.
    exfalso. apply (not_in_map_some (ds ++ qs)). rewrite E.
    apply in_or_app. right. left. reflexivity.
  - destruct H as (Hd & Hq & _).
    rewrite Hd, Hq, app_assoc, <- map_app in E.
    destruct (sentinel_split _ _ _ E) as (-> & ->).
    split; [reflexivity|apply not_in_map_some].
  - destruct H as (Hd & Hq & _). rewrite Hd, Hq, app_nil_r in E.
    destruct (sentinel_split _ _ _ E) as (-> & ->).
    split; [reflexivity|apply not_in_map_some].
Qed.

Lemma sentinel_is_last_witness :
  dequeued (run [Ingest; Ingest; Generator; Ingest] (start two_chunks))
  ++ audio_q (run [Ingest; Ingest; Generator; Ingest] (start two_chunks))
  = [Some "a"; Some "b"] ++ None :: []
  /\ ~ In None [Some "a"; Some "b"].
Proof.
  split; [reflexivity|].
  apply (proj2 (sentinel_is_last two_chunks [Ingest; Ingest; Generator; Ingest]
                  [Some "a"; Some "b"] [] eq_refl)).
Defined.

End IngestMore.

(** ** More on strings *)

Module StripProofs.

Lemma rstrip_nonspace (c : ascii) (s : string) :
  Py.isspace c = false -> Py.rstrip (String c s) = String c (Py.rstrip s).
Proof. intro H. simpl. rewrite H, andb_false_r. reflexivity. Qed.

Lemma rstrip_idem (s : string) : Py.rstrip (Py.rstrip s) = Py.rstrip s.
Proof.
  induction s as [|c s IH]; [reflexivity|].
  simpl. destruct (Py.is_empty (Py.rstrip s) && Py.isspace c) eqn:E.
  - reflexivity.
  - simpl. rewrite IH, E. reflexivity.
Qed.

(** What [lstrip] leaves does not start with white space. *)
Lemma lstrip_head (s : string) :
  Py.lstrip s = EmptyString
  \/ exists c t, Py.lstrip s = String c t /\ Py.isspace c = false.
Proof.
  induction s as [|c s IH]; simpl; [auto|].
  destruct (Py.isspace c) eqn:E; [exact IH|].
  right. exists c, s. auto.
Qed.

(** What [strip] leaves starts and ends without white space: stripping it
    again changes nothing. *)
Lemma strip_idem (s : string) : Py.strip (Py.strip s) = Py.strip s.
Proof.
  unfold Py.strip.
  destruct (lstrip_head s) as [-> | (c & t & -> & Hc)]; [reflexivity|].
  rewrite (rstrip_nonspace _ _ Hc). simpl Py.lstrip. rewrite Hc.
  rewrite (rstrip_nonspace _ _ Hc), rstrip_idem. reflexivity.
Qed.

Lemma append_assoc (a b c : string) : (a +++ b) +++ c = a +++ b +++ c.
Proof. induction a as [|x a IH]; simpl; congruence. Qed.

Lemma length_append (a b : string) :
  String.length (a +++ b) = String.length a + String.length b.
Proof. induction a as [|x a IH]; simpl; congruence. Qed.

Lemma substring_all (s : string) : substring 0 (String.length s) s = s.
Proof. induction s as [|x s IH]; simpl; congruence. Qed.

(** The part of [a ++ b] after [a]. *)
Lemma substring_skip (a b : string) :
  substring (String.length a) (String.length b) (a +++ b) = b.
Proof. induction a as [|x a IH]; simpl; [apply substring_all|exact IH]. Qed.

(** The part [b] of [a ++ b ++ c]. *)
Lemma substring_middle (a b c : string) :
  substring (String.length a) (String.length b) (a +++ b +++ c) = b.
Proof.
  induction a as [|x a IH]; simpl; [|exact IH].
  induction b as [|y b IHb]; simpl.
  - apply PyProofs.substring_0_length.
  - rewrite IHb. reflexivity.
Qed.

Lemma first_index_append (c : ascii) (a b : string) :
  Py.first_index c a = None ->
  Py.first_index c (a +++ b) =
  option_map (fun i => String.length a + i) (Py.first_index c b).
Proof.
  induction a as [|x a IH]; simpl; intro H.
  - destruct (Py.first_index c b); reflexivity.
  - destruct (Ascii.eqb x c); [discriminate|].
    destruct (Py.first_index c a); [discriminate|].
    rewrite IH by reflexivity. destruct (Py.first_index c b); reflexivity.
Qed.

Lemma last_index_append (c : ascii) (a b : string) (j : nat) :
  Py.last_index c b = Some j ->
  Py.last_index c (a +++ b) = Some (String.length a + j).
Proof.
  intro H. induction a as [|x a IH]; simpl; [exact H|].
  rewrite IH. reflexivity.
Qed.

(** [s[len(a):]] of [s = a + b]. *)
Lemma slice_after (a b : string) :
  Py.slice (a +++ b) (Some (Z.of_nat (String.length a))) None = b.
Proof.
  unfold Py.slice, Py.clamp, Py.len. rewrite length_append.
  destruct (Z.ltb_spec (Z.of_nat (String.length a)) 0); [lia|].
  replace (Z.to_nat (Z.min _ _)) with (String.length a) by lia.
  replace (Z.to_nat (_ - _)) with (String.length b) by lia.
  apply substring_skip.
Qed.

(** A character found among the first [k] is found in the first [k]. *)
Lemma first_index_prefix (c : ascii) (s : string) :
  forall k i,
    Py.first_index c s = Some i -> i < k ->
    Py.first_index c (substring 0 k s) = Some i.
Proof.
  induction s as [|x s IH]; intros k i H Hk; simpl in H; [discriminate|].
  destruct k as [|k]; [lia|]. simpl.
  destruct (Ascii.eqb x c); [exact H|].
  destruct (Py.first_index c s) as [j|]; [|discriminate].
  inversion H; subst. rewrite (IH k j eq_refl) by lia. reflexivity.
Qed.

End StripProofs.

(** ** More on the line parser of [generate] *)

Module LineMore.
Import Http.
Import PyProofs.
Import StripProofs.
Import LineProofs.

Lemma has_marker_spec (line : string) :
  has_marker line = true <->
  exists c rest i,
    line = String c rest /\ Py.isdigit c = true /\
    Py.first_index "." line = Some i /\ i < 4.
Proof.
  split.
  - intro H. destruct (question_of_marker _ H) as (i & Hi & Hlt & _).
    unfold has_marker in H. destruct line as [|c rest]; [discriminate|].
    simpl in H. apply andb_prop in H. destruct H as (Hd & _).
    exists c, rest, i. auto.
  - intros (c & rest & i & -> & Hd & Hi & Hlt).
    unfold has_marker. simpl Py.first_char. cbv iota. rewrite Hd.
    simpl andb. unfold Py.contains. rewrite find_char.
    unfold Py.slice, Py.clamp, Py.len.
    pose proof (first_index_lt _ _ _ Hi) as Hlen.
    destruct (Z.ltb_spec 4 0); [lia|].
    change (Z.to_nat 0) with 0.
    rewrite (first_index_prefix _ _ _ i Hi) by lia.
    apply Z.leb_le. lia.
Qed.

(** The test [line[0].isdigit() and '.' in line[:4]] holds exactly for the
    lines that begin with a digit and have their first period among the
    first four characters: a marker of four digits or more is none. *)
Theorem has_marker_iff (line : string) :
  has_marker line = true <->
  exists c rest i,
    line = String c rest /\ Py.isdigit c = true /\
    Py.first_index "." line = Some i /\ i < 4.
Proof. apply has_marker_spec. Qed.

(** A line made of a digit, at most two more characters without a period,
    a period and a rest gives the rest, stripped: [1. x], [12. x] and
    [1a. x] all give [x]. *)
Theorem numbered_line_loses_its_marker (d : ascii) (ds rest : string) :
  Py.isdigit d = true ->
  Py.first_index "." (String d ds) = None ->
  String.length ds <= 2 ->
  question_of (String d ds +++ "." +++ rest) = Py.strip rest.
Proof.
  intros Hd Hnone Hlen.
  assert (Hi : Py.first_index "." (String d ds +++ "." +++ rest)
               = Some (String.length (String d ds))).
  { rewrite (first_index_append _ _ _ Hnone). simpl.
    rewrite Nat.add_0_r. reflexivity. }
  assert (Hm : has_marker (String d ds +++ "." +++ rest) = true).
  { apply has_marker_spec. exists d, (ds +++ "." +++ rest), (S (String.length ds)).
    repeat split; auto. simpl; lia. }
  destruct (question_of_marker _ Hm) as (i & Hi' & _ & ->).
  rewrite Hi in Hi'. inversion Hi'; subst i. f_equal.
  rewrite <- (append_assoc (String d ds) "." rest).
  match goal with
  | |- Py.slice _ (Some ?z) None = _ =>
      replace z with (Z.of_nat (String.length (String d ds +++ ".")))
        by (rewrite length_append; simpl; lia)
  end.
  apply slice_after.
Qed.

Lemma numbered_line_loses_its_marker_witness :
  Py.isdigit "1" = true
  /\ Py.first_index "." "12" = None
  /\ question_of "12. Why us?  " = "Why us?".
Proof.
  split; [reflexivity|]. split; [reflexivity|].
  apply (numbered_line_loses_its_marker "1" "2" " Why us?  ").
  - reflexivity.
  - reflexivity.
  - simpl; lia.
Defined.

Lemma question_of_stripped (line : string) :
  Py.strip line = line -> Py.strip (question_of line) = question_of line.
Proof.
  intro H. destruct (has_marker line) eqn:E.
  - destruct (question_of_marker _ E) as (i & _ & _ & ->). apply strip_idem.
  - rewrite (question_of_plain _ E). exact H.
Qed.

(** Every question returned is free of white space at both ends. *)
Theorem questions_are_stripped (questions_text : string) :
  Forall (fun q => Py.strip q = q) (parse_questions questions_text).
Proof.
  rewrite parse_questions_eq. apply Forall_forall. intros q Hq.
  apply in_map_iff in Hq. destruct Hq as (l & <- & Hl).
  apply filter_In in Hl. destruct Hl as (Hl & _).
  apply in_map_iff in Hl. destruct Hl as (l0 & <- & _).
  apply question_of_stripped, strip_idem.
Qed.

(** [generate] returns one question for each line that is not blank: the
    number of questions is the number of such lines, whatever it is. *)
Theorem one_question_per_line (questions_text : string) :
  List.length (parse_questions questions_text) =
  List.length
    (filter (fun l => Py.truthy (Py.strip l)) (Py.splitlines questions_text)).
Proof.
  rewrite parse_questions_eq, length_map.
  induction (Py.splitlines questions_text) as [|l ls IH]; simpl; [reflexivity|].
  destruct (Py.truthy (Py.strip l)); simpl; congruence.
Qed.

(** The list holds an empty question exactly when some line, once
    stripped, carries a marker and has nothing but white space after its
    first period. *)
Theorem empty_question_iff (questions_text : string) :
  In EmptyString (parse_questions questions_text) <->
  exists l i,
    In l (Py.splitlines questions_text)
    /\ has_marker (Py.strip l) = true
    /\ Py.first_index "." (Py.strip l) = Some i
    /\ Py.strip (Py.slice (Py.strip l) (Some (Z.of_nat i + 1)%Z) None)
       = EmptyString.
Proof.
  rewrite parse_questions_eq. split.
  - intro H. apply in_map_iff in H. destruct H as (l' & Hq & Hl).
    apply filter_In in Hl. destruct Hl as (Hl & Ht).
    apply in_map_iff in Hl. destruct Hl as (l & <- & Hin).
    destruct (has_marker (Py.strip l)) eqn:E.
    + destruct (question_of_marker _ E) as (i & Hi & _ & Hqo).
      exists l, i. rewrite <- Hqo. auto.
    + rewrite (question_of_plain _ E) in Hq. rewrite Hq in Ht. discriminate.
  - intros (l & i & Hin & Hm & Hi & He).
    apply in_map_iff. exists (Py.strip l). split.
    + destruct (question_of_marker _ Hm) as (j & Hj & _ & ->).
      rewrite Hi in Hj. inversion Hj; subst. exact He.
    + apply filter_In. split; [apply in_map; exact Hin|].
      destruct (Py.strip l); [discriminate Hm|reflexivity].
Qed.

Lemma has_marker_iff_witness :
  has_marker "12. Why us?" = true /\ has_marker "1000. Why us?" = false.
Proof.
  split.
  - apply (proj2 (has_marker_iff "12. Why us?")).
    exists "1"%char, "2. Why us?", 2. repeat split; lia.
  - destruct (has_marker "1000. Why us?") eqn:E; [|reflexivity].
    destruct (proj1 (has_marker_iff "1000. Why us?") E)
      as (c & rest & i & _ & _ & Hi & Hlt).
    inversion Hi; subst. lia.
Defined.

Lemma empty_question_iff_witness :
  In EmptyString (parse_questions ("1. Why us?" +++ nl +++ " 2. ")).
Proof.
  apply (proj2 (empty_question_iff ("1. Why us?" +++ nl +++ " 2. "))).
  exists " 2. ", 1. repeat split. right. left. reflexivity.
Defined.

End LineMore.

(** ** More on the two handlers *)

Module HttpMore.
Import Http.
Import Accepted.
Import PyProofs.
Import StripProofs.
Import FenceProofs.
Import HttpProofs.

Section WithBackend.
Variable model : string -> model_reply.
Variable json_loads : string -> outcome json.
Variable to_str : json -> string.

(** A reply that is blank gives the empty list of questions, with status
    200: [generate] does not mind a model that says nothing. *)
Theorem generate_blank_reply
    (d : list (string * json)) (text : string) (w : backend) :
  model (generate_prompt to_str (field d "job_description")) = Reply (Text text) ->
  Py.strip text = EmptyString ->
  result_of (generate model to_str (Body (JDict d))) w =
    Returned (jsonify [("questions", JList [])] 200).
Proof.
  intros Hm Hs. unfold result_of. rewrite generate_run. cbv zeta.
  rewrite Hm, Hs. reflexivity.
Qed.

(** When the model call raises, or reading [response.text] does, [generate]
    answers with status 500 and [{"error": str(e)}], without any question,
    after its one upstream call. *)
Theorem generate_upstream_failure
    (d : list (string * json)) (e : exn) (w : backend) :
  model (generate_prompt to_str (field d "job_description")) = CallFails e
  \/ model (generate_prompt to_str (field d "job_description"))
     = Reply (TextRaises e) ->
  generate model to_str (Body (JDict d)) w =
    (Returned (jsonify [("error", JStr (exn_str e))] 500),
     {| prompts :=
          prompts w ++ [generate_prompt to_str (field d "job_description")] |}).
Proof.
  intro H. rewrite generate_run. cbv zeta. destruct H as [-> | ->]; reflexivity.
Qed.

(** [generate] calls the model exactly when the body is an object, and
    then once. *)
Theorem generate_calls_model_iff_readable (req : request) (w : backend) :
  upstream_calls (world_after (generate model to_str req) w) =
  upstream_calls w + (if readable req then 1 else 0).
Proof.
  unfold world_after, upstream_calls. rewrite generate_run.
  destruct req as [e|data]; [simpl; lia|].
  destruct data; try (simpl; lia).
  cbv zeta. simpl readable.
  destruct (model _) as [[text|e]|e]; simpl; rewrite length_app; reflexivity.
Qed.

(** [evaluate] calls the model exactly when the body is an object whose
    [question] and [answer] are both true in Python's sense, and then
    once: a number or a blank string passes, an empty list does not. *)
Theorem evaluate_calls_model_iff_accepted (req : request) (w : backend) :
  upstream_calls (world_after (evaluate model json_loads to_str req) w) =
  upstream_calls w + (if accepted req then 1 else 0).
Proof.
  unfold world_after, upstream_calls. rewrite evaluate_run.
  destruct req as [e|data]; [simpl; lia|].
  destruct data; try (simpl; lia).
  simpl accepted.
  destruct (py_bool (field d "question")); [|simpl; lia].
  destruct (py_bool (field d "answer")); [|simpl; lia].
  simpl negb. simpl orb. cbv zeta iota.
  destruct (model _) as [text|e]; [|simpl; rewrite length_app; reflexivity].
  destruct (getattr_text text _) as [[raw|e] w'];
    simpl; rewrite length_app; reflexivity.
Qed.

(** Whatever [json.loads] makes of the extracted part is returned as the
    evaluation, unchanged and unchecked, with status 200: no key, score
    or total is looked at. *)
Theorem evaluate_passes_parsed_value_through
    (d : list (string * json)) (raw : string) (v : json) (w : backend) :
  py_bool (field d "question") = true ->
  py_bool (field d "answer") = true ->
  model (evaluate_prompt to_str (field d "question") (field d "answer"))
    = Reply (Text raw) ->
  json_loads (json_part (clean raw)) = Returned v ->
  result_of (evaluate model json_loads to_str (Body (JDict d))) w =
    Returned (jsonify [("evaluation", v)] 200).
Proof.
  intros Hq Ha Hm Hj. unfold result_of.
  rewrite evaluate_run, Hq, Ha. simpl negb. simpl orb. cbv zeta.
  rewrite Hm. simpl. rewrite Hj. reflexivity.
Qed.

(** When the model call raises, [evaluate] answers with status 500 and
    [{"error": str(e)}] after its one upstream call; [json.loads] is not
    reached and no fallback record is built. *)
Theorem evaluate_upstream_failure
    (d : list (string * json)) (e : exn) (w : backend) :
  py_bool (field d "question") = true ->
  py_bool (field d "answer") = true ->
  model (evaluate_prompt to_str (field d "question") (field d "answer"))
    = CallFails e ->
  evaluate model json_loads to_str (Body (JDict d)) w =
    (Returned (jsonify [("error", JStr (exn_str e))] 500),
     {| prompts :=
          prompts w
          ++ [evaluate_prompt to_str (field d "question") (field d "answer")]
     |}).
Proof.
  intros Hq Ha Hm.
  rewrite evaluate_run, Hq, Ha. simpl negb. simpl orb. cbv zeta.
  rewrite Hm. reflexivity.
Qed.

(** When reading [response.text] raises an instance of [AttributeError],
    of that class or of a subclass, [evaluate] reads the empty text and
    falls back to [{"raw_evaluation": ""}] with status 200 once
    [json.loads] has refused the empty string; an exception that is no
    instance of [AttributeError] goes to the outer handler and gives a
    500. *)
Theorem evaluate_missing_text_attribute
    (d : list (string * json)) (e e' : exn) (w : backend) :
  py_bool (field d "question") = true ->
  py_bool (field d "answer") = true ->
  model (evaluate_prompt to_str (field d "question") (field d "answer"))
    = Reply (TextRaises e) ->
  json_loads EmptyString = Raised e' ->
  result_of (evaluate model json_loads to_str (Body (JDict d))) w =
    if isinstance e "AttributeError"
    then Returned
           (jsonify
              [("evaluation", JDict [("raw_evaluation", JStr EmptyString)])]
              200)
    else Returned (jsonify [("error", JStr (exn_str e))] 500).
Proof.
  intros Hq Ha Hm Hj. unfold result_of.
  rewrite evaluate_run, Hq, Ha. simpl negb. simpl orb. cbv zeta.
  rewrite Hm. unfold getattr_text.
  destruct (isinstance e "AttributeError"); [|reflexivity].
  unfold ret. cbv beta iota.
  change (json_part (clean EmptyString)) with EmptyString.
  rewrite Hj. reflexivity.
Qed.

End WithBackend.

Lemma generate_blank_reply_witness :
  Py.strip ("  " +++ nl +++ nl) = EmptyString
  /\ result_of (generate blank_model str_sample engineer_request) fresh =
     Returned (jsonify [("questions", JList [])] 200).
Proof.
  split; [reflexivity|].
  apply (generate_blank_reply blank_model str_sample
           [("job_description", JStr "Backend engineer")]
           ("  " +++ nl +++ nl) fresh); reflexivity.
Defined.

Lemma generate_upstream_failure_witness :
  failing_model (generate_prompt str_sample (JStr "Backend engineer"))
    = CallFails (Exn "ResourceExhausted" "429 quota exceeded")
  /\ result_of (generate failing_model str_sample engineer_request) fresh =
     Returned (jsonify [("error", JStr "429 quota exceeded")] 500).
Proof.
  split; [reflexivity|].
  unfold result_of, engineer_request.
  rewrite (generate_upstream_failure failing_model str_sample
             [("job_description", JStr "Backend engineer")]
             (Exn "ResourceExhausted" "429 quota exceeded") fresh
             (or_introl eq_refl)).
  reflexivity.
Defined.

Lemma evaluate_passes_parsed_value_through_witness :
  loads_sample (json_part (clean (nl +++ "{}" +++ nl))) = Returned (JDict [])
  /\ result_of (evaluate object_model loads_sample str_sample answered_request)
               fresh =
     Returned (jsonify [("evaluation", JDict [])] 200).
Proof.
  split; [reflexivity|].
  apply (evaluate_passes_parsed_value_through
           object_model loads_sample str_sample
           [("question", JStr "Why us?"); ("answer", JStr "Because.")]
           (nl +++ "{}" +++ nl) (JDict []) fresh); reflexivity.
Defined.

Lemma evaluate_upstream_failure_witness :
  py_bool (JStr "Why us?") = true
  /\ result_of (evaluate failing_model loads_sample str_sample
                         answered_request) fresh =
     Returned (jsonify [("error", JStr "429 quota exceeded")] 500).
Proof.
  split; [reflexivity|].
  unfold result_of, answered_request.
  rewrite (evaluate_upstream_failure failing_model loads_sample str_sample
             [("question", JStr "Why us?"); ("answer", JStr "Because.")]
             (Exn "ResourceExhausted" "429 quota exceeded") fresh
             eq_refl eq_refl eq_refl).
  reflexivity.
Defined.

Lemma evaluate_missing_text_attribute_witness :
  loads_sample EmptyString =
    Raised (Exn "JSONDecodeError" "Expecting value: line 1 column 1 (char 0)")
  /\ result_of (evaluate textless_model loads_sample str_sample
                         answered_request) fresh =
     Returned
       (jsonify
          [("evaluation", JDict [("raw_evaluation", JStr EmptyString)])] 200)
  /\ result_of (evaluate frozen_model loads_sample str_sample
                         answered_request) fresh =
     Returned
       (jsonify
          [("evaluation", JDict [("raw_evaluation", JStr EmptyString)])] 200).
Proof.
  split; [reflexivity|]. split.
  - apply (evaluate_missing_text_attribute
             textless_model loads_sample str_sample
             [("question", JStr "Why us?"); ("answer", JStr "Because.")]
             (Exn "AttributeError" "'Response' object has no attribute 'text'")
             (Exn "JSONDecodeError"
                  "Expecting value: line 1 column 1 (char 0)")
             fresh); reflexivity.
  - apply (evaluate_missing_text_attribute
             frozen_model loads_sample str_sample
             [("question", JStr "Why us?"); ("answer", JStr "Because.")]
             (MkExn "FrozenInstanceError" "cannot assign to field 'text'"
                    ["AttributeError"])
             (Exn "JSONDecodeError"
                  "Expecting value: line 1 column 1 (char 0)")
             fresh); reflexivity.
Defined.

End HttpMore.

(** ** More on the extraction of [evaluate] *)

Module ExtractMore.
Import Http.
Import Accepted.
Import PyProofs.
Import StripProofs.
Import FenceProofs.
Import HttpProofs.

(** Replacing a string that does not occur changes nothing. *)
Lemma replace_from_absent (old new s : string) :
  forall i,
    Py.find_from old s i = (-1)%Z -> (0 <= i)%Z ->
    Py.replace_from old new s 0 = s.
Proof.
  induction s as [|c s IH]; intros i H Hi; [reflexivity|].
  unfold Py.find_from in H; fold Py.find_from in H.
  unfold Py.replace_from; fold Py.replace_from.
  destruct (prefix old (String c s)); [lia|].
  rewrite (IH (i + 1)%Z); [reflexivity|exact H|lia].
Qed.

(** A text without a fence is cleaned by [strip] alone. *)
Lemma clean_without_fence (raw_text : string) :
  Py.find "```" (Py.strip raw_text) = (-1)%Z ->
  clean raw_text = Py.strip raw_text.
Proof.
  intro H. unfold clean, Py.replace. simpl Py.is_empty. cbv iota.
  rewrite (replace_from_absent "```json" _ _ 0%Z);
    [|exact (find_from_longer fence "json" _ 0 0 H (Z.le_refl 0))|lia].
  apply (replace_from_absent _ _ _ 0%Z); [exact H|lia].
Qed.

Lemma absent_last (c : ascii) (s : string) :
  Py.first_index c s = None -> Py.last_index c s = None.
Proof.
  induction s as [|x s IH]; simpl; [reflexivity|].
  destruct (Ascii.eqb x c); [discriminate|].
  destruct (Py.first_index c s); [discriminate|].
  intros _. rewrite IH; reflexivity.
Qed.

Lemma absent_append (c : ascii) (a b : string) :
  Py.first_index c a = None -> Py.first_index c b = None ->
  Py.first_index c (a +++ b) = None.
Proof. intros Ha Hb. rewrite (first_index_append _ _ _ Ha), Hb. reflexivity. Qed.

Lemma append_nil_r (s : string) : s +++ EmptyString = s.
Proof. induction s; simpl; congruence. Qed.

Lemma regroup (a body b : string) :
  a +++ ("{" +++ body +++ "}") +++ b = (a +++ "{" +++ body) +++ String "}" b.
Proof.
  induction a as [|x a IH]; [|simpl; f_equal; exact IH].
  simpl. f_equal. induction body; simpl; congruence.
Qed.

(** The object [{body}] between a text without opening brace and a text
    without closing brace is what [json_part] takes. *)
Lemma json_part_between (a body b : string) :
  Py.first_index "{" a = None ->
  Py.first_index "}" b = None ->
  json_part (a +++ ("{" +++ body +++ "}") +++ b) = "{" +++ body +++ "}".
Proof.
  intros Ha Hb. rewrite json_part_cases.
  rewrite (first_index_append _ _ _ Ha). simpl option_map.
  pose proof (regroup a body b) as Hg.
  assert (Hl : Py.last_index "}" (a +++ ("{" +++ body +++ "}") +++ b)
               = Some (String.length (a +++ "{" +++ body) + 0)).
  { rewrite Hg. apply last_index_append. simpl.
    rewrite (absent_last _ _ Hb). reflexivity. }
  rewrite Hl.
  assert (H1 : String.length (a +++ "{" +++ body)
               = String.length a + S (String.length body))
    by (rewrite length_append; reflexivity).
  assert (H2 : String.length ("{" +++ body +++ "}") = S (S (String.length body)))
    by (simpl; rewrite length_append; simpl; lia).
  replace (S (String.length (a +++ "{" +++ body) + 0) - (String.length a + 0))
    with (String.length ("{" +++ body +++ "}"))
    by (rewrite H1, H2; lia).
  rewrite Nat.add_0_r. apply substring_middle.
Qed.

(** What [evaluate] hands to [json.loads], by the braces of the cleaned
    text: with both braces, the substring from the first opening brace
    through the last closing brace, which is empty when the last closing
    brace comes first; with an opening brace only, nothing; without an
    opening brace, the closing brace that ends the text if there is one,
    and nothing otherwise. *)
Theorem what_json_loads_receives (cleaned : string) :
  json_part cleaned =
  match Py.first_index "{" cleaned, Py.last_index "}" cleaned with
  | Some a, Some b => substring a (S b - a) cleaned
  | Some a, None => EmptyString
  | None, Some b =>
      if (S b =? String.length cleaned)%nat then "}" else EmptyString
  | None, None => EmptyString
  end.
Proof. apply json_part_cases. Qed.

(** Whatever the model text, the cleaned text holds neither of the two
    fence markers. *)
Theorem cleaned_text_has_no_fence (raw_text : string) :
  Py.find "```" (clean raw_text) = (-1)%Z
  /\ Py.find "```json" (clean raw_text) = (-1)%Z.
Proof. apply clean_has_no_fence. Qed.

(** A reply that is one JSON object, with white space around it at most
    and no fence in it, goes to [json.loads] whole. *)
Theorem bare_object_is_parsed_whole (raw_text body : string) :
  Py.strip raw_text = "{" +++ body +++ "}" ->
  Py.find "```" (Py.strip raw_text) = (-1)%Z ->
  json_part (clean raw_text) = "{" +++ body +++ "}".
Proof.
  intros Hs Hf. rewrite (clean_without_fence _ Hf), Hs.
  pose proof (json_part_between EmptyString body EmptyString eq_refl eq_refl)
    as H.
  rewrite append_nil_r in H. exact H.
Qed.

Lemma bare_object_is_parsed_whole_witness :
  Py.strip (nl +++ "{}" +++ nl) = "{" +++ "" +++ "}"
  /\ json_part (clean (nl +++ "{}" +++ nl)) = "{}".
Proof.
  split; [reflexivity|].
  apply (bare_object_is_parsed_whole (nl +++ "{}" +++ nl) "");
    reflexivity.
Defined.

Lemma prefix_append_self (a b : string) : prefix a (a +++ b) = true.
Proof.
  induction a as [|x a IH]; simpl.
  - destruct b; reflexivity.
  - destruct (ascii_dec x x); [exact IH|congruence].
Qed.

(** No occurrence starts where the first character of [old] is absent. *)
Lemma replace_from_skip (t : ascii) (old' new pre rest : string) :
  Py.first_index t pre = None ->
  Py.replace_from (String t old') new (pre +++ rest) 0 =
  pre +++ Py.replace_from (String t old') new rest 0.
Proof.
  induction pre as [|c pre IH]; intro H; [reflexivity|].
  simpl in H. destruct (Ascii.eqb c t) eqn:E; [discriminate|].
  destruct (Py.first_index t pre); [discriminate|].
  cbn [append Py.replace_from prefix].
  destruct (ascii_dec t c) as [->|_].
  - rewrite Ascii.eqb_refl in E. discriminate.
  - rewrite IH by reflexivity. reflexivity.
Qed.

Lemma replace_from_pass (old new a rest : string) :
  Py.replace_from old new (a +++ rest) (String.length a) =
  Py.replace_from old new rest 0.
Proof.
  induction a as [|x a IH]; [reflexivity|].
  simpl. destruct rest; exact IH.
Qed.

(** An occurrence at the head is replaced, and the search goes on after
    it. *)
Lemma replace_from_hit (t : ascii) (old' new rest : string) :
  Py.replace_from (String t old') new (String t old' +++ rest) 0 =
  new +++ Py.replace_from (String t old') new rest 0.
Proof.
  cbn [append Py.replace_from].
  change (String t (old' +++ rest)) with (String t old' +++ rest).
  rewrite prefix_append_self.
  replace (String.length (String t old') - 1) with (String.length old')
    by (simpl; lia).
  rewrite replace_from_pass. reflexivity.
Qed.

(** A reply that wraps one JSON object in a [json] fence, with prose
    before the fence and anything but braces and fences around the object,
    gives [json.loads] the object and nothing else. *)
Theorem fenced_object_is_extracted (raw_text pre a body b : string) :
  Py.strip raw_text =
    pre +++ "```json" +++ a +++ ("{" +++ body +++ "}") +++ b +++ "```" ->
  Py.first_index "`" pre = None ->
  Py.first_index "{" pre = None ->
  Py.first_index "`" a = None ->
  Py.first_index "{" a = None ->
  Py.first_index "`" body = None ->
  Py.first_index "`" b = None ->
  Py.first_index "}" b = None ->
  json_part (clean raw_text) = "{" +++ body +++ "}".
Proof.
  intros Hs Hpre Hpre' Ha Ha' Hbody Hb Hb'.
  assert (Hobj : Py.first_index "`" ("{" +++ body +++ "}") = None).
  { apply (absent_append _ "{" (body +++ "}")); [reflexivity|].
    apply absent_append; [exact Hbody|reflexivity]. }
  assert (Hin : Py.first_index "`" (a +++ ("{" +++ body +++ "}") +++ b) = None).
  { apply absent_append; [exact Ha|]. apply absent_append; assumption. }
  assert (Hc : clean raw_text = pre +++ a +++ ("{" +++ body +++ "}") +++ b).
  { unfold clean, Py.replace. simpl Py.is_empty. cbv iota. rewrite Hs.
    rewrite (replace_from_skip "`" "``json" _ _ _ Hpre).
    rewrite (replace_from_hit "`" "``json").
    change (EmptyString +++ ?x) with x.
    replace (a +++ ("{" +++ body +++ "}") +++ b +++ "```")
      with ((a +++ ("{" +++ body +++ "}") +++ b) +++ "```")
      by (rewrite !append_assoc; reflexivity).
    rewrite (replace_from_skip "`" "``json" _ _ _ Hin).
    change (Py.replace_from "```json" "" "```" 0) with "```".
    rewrite <- append_assoc.
    rewrite (replace_from_skip "`" "``" _ _ _ (absent_append _ _ _ Hpre Hin)).
    change (Py.replace_from "```" "" "```" 0) with EmptyString.
    rewrite append_nil_r. reflexivity. }
  rewrite Hc, <- append_assoc.
  apply json_part_between; [apply absent_append; assumption|exact Hb'].
Qed.

Lemma fenced_object_is_extracted_witness :
  Py.strip ("Here you go:" +++ nl +++ "```json" +++ nl +++ "{}" +++ nl
            +++ "```" +++ nl)
  = ("Here you go:" +++ nl) +++ "```json" +++ nl +++ ("{" +++ "" +++ "}")
    +++ nl +++ "```"
  /\ json_part (clean ("Here you go:" +++ nl +++ "```json" +++ nl +++ "{}"
                       +++ nl +++ "```" +++ nl)) = "{}".
Proof.
  split; [reflexivity|].
  apply (fenced_object_is_extracted _ ("Here you go:" +++ nl) nl "" nl);
    reflexivity.
Defined.

End ExtractMore.
